(** * questionbankapp: the request handlers of [server.js]

    A shallow embedding of the four Express handlers ([/api/signup],
    [/api/login], [/api/grade], [/api/leaderboard]) over an explicit model of
    the two Postgres tables they read and write, and the properties of the
    specification proved (or refuted) on that embedding.

    Conventions of the model:
    - a JavaScript value read from a JSON document is a [json]; a value that
      may be [undefined] is a [jsval] (= [option json]);
    - JSON numbers are restricted to integers ([Z]); fractional numbers are
      outside the model;
    - strings are Rocq strings, sequences of bytes carrying UTF-8 text;
      [toLowerCase] acts on the ASCII letters (no other letter lowercases to
      a letter of [correct], the only word the code looks for);
    - built-ins of the platform that the repository does not define
      ([JSON.parse], [String.prototype.trim], [ToNumber] and [ToString] on
      non-primitive input, the driver's binding of non-string parameters),
      and what the database leaves open (the collation, the order in which a
      [SELECT] without [ORDER BY] returns its rows) are the fields of the
      class [Platform];
    - Postgres rejects a [TEXT] parameter that holds U+0000; the statements
      of the model bind every string, and the theorems that rely on a
      statement being accepted assume [text_value] of the strings sent;
    - the surrogate [id SERIAL] columns are left out: no handler reads their
      value ([SELECT id] is only used through [.length]). *)

From Stdlib Require Import List String Ascii ZArith Bool Arith Lia DecimalString.
From Stdlib Require Import Sorted Permutation.
Import ListNotations.

Local Open Scope string_scope.
Local Open Scope list_scope.

(* ================================================================== *)
(** ** JavaScript values *)

#[warnings="-register-all"]
Inductive json : Type :=
| JNull
| JBool (b : bool)
| JNum (n : Z)
| JStr (s : string)
| JArr (items : list json)
| JObj (fields : list (string * json)).

(** [None] is [undefined]. *)
Definition jsval : Type := option json.

Definition undefined : jsval := None.

(** ECMAScript ToBoolean. *)
Definition truthy (v : jsval) : bool :=
  match v with
  | None => false
  | Some JNull => false
  | Some (JBool b) => b
  | Some (JNum n) => negb (n =? 0)%Z
  | Some (JStr s) => negb (s =? "")
  | Some (JArr _) => true
  | Some (JObj _) => true
  end.

(** [a && b] evaluates to [a] when [a] is falsy and to [b] otherwise. *)
Definition js_and (a b : jsval) : jsval := if truthy a then b else a.

Definition js_bool (b : bool) : jsval := Some (JBool b).

(** [v !== undefined] and [v !== null]. *)
Definition not_undefined (v : jsval) : bool :=
  match v with None => false | Some _ => true end.

Definition not_null (v : jsval) : bool :=
  match v with Some JNull => false | _ => true end.

(** [v === s] for a string literal [s]: strict equality never converts. *)
Definition strict_eq_string (v : jsval) (s : string) : bool :=
  match v with Some (JStr t) => t =? s | _ => false end.

(** Lookup in the field list of an object; the first binding wins. *)
Fixpoint assoc (k : string) (fs : list (string * json)) : jsval :=
  match fs with
  | [] => None
  | (k', v) :: rest => if k' =? k then Some v else assoc k rest
  end.

(** [v.k] on a value that is neither [null] nor [undefined], for a key [k]
    that no prototype defines ([choices], [message], [content], [status]):
    own properties of objects only. *)
Definition prop (k : string) (v : json) : jsval :=
  match v with
  | JObj fs => assoc k fs
  | _ => None
  end.

(** [v[0]]: first element of an array, first character of a string, the
    property ["0"] of an object. *)
Definition elem0 (v : json) : jsval :=
  match v with
  | JArr (x :: _) => Some x
  | JStr (String c _) => Some (JStr (String c ""))
  | JObj fs => assoc "0" fs
  | _ => None
  end.

(** The optional chain [v?.f]: short-circuits to [undefined] on [null] and
    [undefined]. *)
Definition opt_chain (f : json -> jsval) (v : jsval) : jsval :=
  match v with
  | None => None
  | Some JNull => None
  | Some x => f x
  end.

(* ================================================================== *)
(** ** Text built-ins *)

Definition dquote : string := String (ascii_of_nat 34) "".

Definition is_space (c : ascii) : bool :=
  let n := nat_of_ascii c in
  ((9 <=? n) && (n <=? 13) || (n =? 32))%nat.

Fixpoint trim_start (s : string) : string :=
  match s with
  | "" => ""
  | String c rest => if is_space c then trim_start rest else s
  end.

(** Drops the trailing white space: a suffix of white space folds to [""]. *)
Fixpoint trim_end (s : string) : string :=
  match s with
  | "" => ""
  | String c rest =>
      match trim_end rest with
      | "" => if is_space c then "" else String c ""
      | r => String c r
      end
  end.

(** [String.prototype.trim] on ASCII text: the trim of the platform of the
    examples. *)
Definition trim_ascii (s : string) : string := trim_end (trim_start s).

(** A string Postgres accepts as the value of a [TEXT] parameter: it holds
    no U+0000. *)
Fixpoint text_value (s : string) : bool :=
  match s with
  | "" => true
  | String c rest => negb (Ascii.eqb c zero) && text_value rest
  end.

Definition lower_ascii (c : ascii) : ascii :=
  let n := nat_of_ascii c in
  if ((65 <=? n) && (n <=? 90))%nat then ascii_of_nat (n + 32) else c.

(** [String.prototype.toLowerCase]. *)
Fixpoint toLowerCase (s : string) : string :=
  match s with
  | "" => ""
  | String c rest => String (lower_ascii c) (toLowerCase rest)
  end.

(** [s.includes(needle)]. *)
Fixpoint includes (needle s : string) : bool :=
  match s with
  | "" => prefix needle ""
  | String _ rest => prefix needle s || includes needle rest
  end.

(** [raw.replace(/```json|```/g, '')]: a left-to-right scan; at each
    position the alternative [```json] is tried before [```], a match is
    dropped and the scan resumes after it.  [skip] counts the characters of
    the current match still to drop. *)
Fixpoint strip_fences_from (skip : nat) (s : string) : string :=
  match s with
  | "" => ""
  | String c rest =>
      match skip with
      | S k => strip_fences_from k rest
      | O =>
          if prefix "```json" s then strip_fences_from 6 rest
          else if prefix "```" s then strip_fences_from 2 rest
          else String c (strip_fences_from 0 rest)
      end
  end.

Definition strip_fences (s : string) : string := strip_fences_from 0 s.

(* ================================================================== *)
(** ** The platform *)

(** Built-ins the handlers call and the repository does not define. *)
Class Platform : Type := {
  (** [JSON.parse]; [None] when it throws a [SyntaxError]. *)
  JSON_parse : string -> option json;
  (** [String.prototype.trim]: it drops white space (of Unicode, not only of
      ASCII) at both ends, so what it returns is a substring. *)
  trim : string -> string;
  trim_within : forall s, exists pre post, s = (pre ++ trim s ++ post)%string;
  (** ECMAScript ToNumber on a string, an array or an object; [None] when
      the result is not an integer ([NaN], an infinity, a fraction). *)
  ToNumber_ext : json -> option Z;
  (** ECMAScript ToString on a value that is not a string. *)
  ToString_ext : jsval -> string;
  (** What the database driver sends for a value that is not a string and is
      bound to a [TEXT] parameter; [None] when the statement is rejected. *)
  text_param_ext : json -> option string;
  (** The order in which a [SELECT] without [ORDER BY] returns the rows it
      found: some rearrangement of them. *)
  row_order : list Z -> list Z;
  row_order_perm : forall l, Permutation (row_order l) l;
  (** The collation [ORDER BY] uses on [TEXT]: a total preorder. *)
  collate_leb : string -> string -> bool;
  collate_total : forall a b, collate_leb a b = true \/ collate_leb b a = true;
  collate_trans : forall a b c,
      collate_leb a b = true -> collate_leb b c = true -> collate_leb a c = true
}.

(* ================================================================== *)
(** ** The store: the two tables of the schema *)

(** [users(username UNIQUE, first_name, last_name, password_hash,
    created_at)]. *)
Record user_row : Type := {
  u_username : string;
  u_first_name : string;
  u_last_name : string;
  u_password_hash : string;
  u_created_at : Z
}.

(** [student_progress(username, question_id INTEGER, completed_at,
    UNIQUE (username, question_id))]. *)
Record progress_row : Type := {
  p_username : string;
  p_question_id : Z;
  p_completed_at : Z
}.

(** A table that was never created is [None]. *)
Record db : Type := {
  users : option (list user_row);
  student_progress : option (list progress_row)
}.

Definition empty_db : db := {| users := None; student_progress := None |}.

Definition set_users (us : list user_row) (d : db) : db :=
  {| users := Some us; student_progress := student_progress d |}.

Definition set_progress (sp : list progress_row) (d : db) : db :=
  {| users := users d; student_progress := Some sp |}.

Inductive sql_error : Type :=
| UndefinedTable (table : string)
| UniqueViolation
| InvalidParameter.

Definition sql_result (A : Type) : Type := (sql_error + A * db)%type.

(** The range of the Postgres type [INTEGER]. *)
Definition is_int4 (n : Z) : bool :=
  ((-2147483648 <=? n) && (n <=? 2147483647))%Z.

Definition same_pair (u : string) (q : Z) (r : progress_row) : bool :=
  (p_username r =? u) && (p_question_id r =? q)%Z.

(** [INSERT ... ON CONFLICT (username, question_id) DO UPDATE SET
    completed_at = NOW()] on the rows of the table. *)
Definition upsert_row (u : string) (q : Z) (t : Z) (sp : list progress_row)
  : list progress_row :=
  if existsb (same_pair u q) sp
  then map (fun r =>
              if same_pair u q r
              then {| p_username := p_username r;
                      p_question_id := p_question_id r;
                      p_completed_at := t |}
              else r) sp
  else sp ++ [{| p_username := u; p_question_id := q; p_completed_at := t |}].

(** One row of the leaderboard query: the three grouping columns and
    [COUNT(sp.question_id)]. *)
Record board_row : Type := {
  b_username : string;
  b_first_name : string;
  b_last_name : string;
  b_questions_done : Z
}.

(** [users u LEFT JOIN student_progress sp ON u.username = sp.username]: a
    user without a match is kept once, with the [sp] columns [NULL]. *)
Definition left_join (us : list user_row) (sp : list progress_row)
  : list (user_row * option progress_row) :=
  flat_map (fun u =>
              match filter (fun p => u_username u =? p_username p) sp with
              | [] => [(u, None)]
              | ps => map (fun p => (u, Some p)) ps
              end) us.

(** The grouping key [u.username, u.first_name, u.last_name]. *)
Definition group_key : Type := (string * string * string)%type.

Definition key_of (u : user_row) : group_key :=
  (u_username u, u_first_name u, u_last_name u).

Definition key_eqb (a b : group_key) : bool :=
  let '(a1, a2, a3) := a in
  let '(b1, b2, b3) := b in
  (a1 =? b1) && (a2 =? b2) && (a3 =? b3).

(** The distinct keys, in order of first occurrence. *)
Fixpoint distinct_keys (ks : list group_key) : list group_key :=
  match ks with
  | [] => []
  | k :: rest => k :: filter (fun k' => negb (key_eqb k k')) (distinct_keys rest)
  end.

(** [COUNT(sp.question_id)] over the rows of one group: the rows whose
    [question_id] is not [NULL]. *)
Definition count_question_id (rows : list (user_row * option progress_row)) : Z :=
  Z.of_nat (List.length (filter (fun r => match snd r with
                                          | Some _ => true
                                          | None => false
                                          end) rows)).

(** [GROUP BY u.username, u.first_name, u.last_name] with the aggregate. *)
Definition group_by_user (rows : list (user_row * option progress_row))
  : list board_row :=
  map (fun k =>
         let '(un, fn, ln) := k in
         {| b_username := un; b_first_name := fn; b_last_name := ln;
            b_questions_done :=
              count_question_id
                (filter (fun r => key_eqb (key_of (fst r)) k) rows) |})
      (distinct_keys (map (fun r => key_of (fst r)) rows)).

Section Queries.
Context {P : Platform}.

(** The value the driver sends for a [TEXT] parameter; [undefined] is
    rejected by the driver.  A string is sent as it is; the database accepts
    it when it is a [text_value], and the theorems on accepted statements
    assume so (no stored string holds U+0000). *)
Definition bind_text (v : jsval) : option string :=
  match v with
  | None => None
  | Some (JStr s) => Some s
  | Some x => text_param_ext x
  end.

(** [Number(v)]; [None] when the result is not an integer. *)
Definition Number (v : jsval) : option Z :=
  match v with
  | None => None
  | Some JNull => Some 0%Z
  | Some (JBool b) => Some (if b then 1 else 0)%Z
  | Some (JNum n) => Some n
  | Some x => ToNumber_ext x
  end.

(** A JavaScript number bound to an [INTEGER] column. *)
Definition bind_int4 (n : option Z) : option Z :=
  match n with
  | Some z => if is_int4 z then Some z else None
  | None => None
  end.

(** [ToString], as a template literal applies it. *)
Definition to_string (v : jsval) : string :=
  match v with
  | Some (JStr s) => s
  | _ => ToString_ext v
  end.

(** [CREATE TABLE IF NOT EXISTS users (...)]. *)
Definition create_users (d : db) : sql_result unit :=
  match users d with
  | Some _ => inr (tt, d)
  | None => inr (tt, set_users [] d)
  end.

(** [SELECT id FROM users WHERE username = $1]: one [tt] per row found. *)
Definition select_user_id (username : jsval) (d : db) : sql_result (list unit) :=
  match users d, bind_text username with
  | None, _ => inl (UndefinedTable "users")
  | Some _, None => inl InvalidParameter
  | Some us, Some n =>
      inr (map (fun _ => tt) (filter (fun u => u_username u =? n) us), d)
  end.

(** [INSERT INTO users (username, first_name, last_name, password_hash)
    VALUES ($1, $2, $3, $4)]; [created_at] defaults to [NOW()]. *)
Definition insert_user (username firstName lastName passwordHash : jsval)
           (now : Z) (d : db) : sql_result unit :=
  match users d with
  | None => inl (UndefinedTable "users")
  | Some us =>
      match bind_text username, bind_text firstName,
            bind_text lastName, bind_text passwordHash with
      | Some n, Some f, Some l, Some h =>
          if existsb (fun u => u_username u =? n) us
          then inl UniqueViolation
          else inr (tt, set_users (us ++ [{| u_username := n;
                                             u_first_name := f;
                                             u_last_name := l;
                                             u_password_hash := h;
                                             u_created_at := now |}]) d)
      | _, _, _, _ => inl InvalidParameter
      end
  end.

(** [SELECT username, first_name, last_name, password_hash FROM users
    WHERE username = $1]. *)
Definition select_user (username : jsval) (d : db) : sql_result (list user_row) :=
  match users d, bind_text username with
  | None, _ => inl (UndefinedTable "users")
  | Some _, None => inl InvalidParameter
  | Some us, Some n => inr (filter (fun u => u_username u =? n) us, d)
  end.

(** [SELECT question_id FROM student_progress WHERE username = $1]: the
    statement has no [ORDER BY], the rows come in the order the database
    chooses. *)
Definition select_progress (username : jsval) (d : db) : sql_result (list Z) :=
  match student_progress d, bind_text username with
  | None, _ => inl (UndefinedTable "student_progress")
  | Some _, None => inl InvalidParameter
  | Some sp, Some n =>
      inr (row_order (map p_question_id (filter (fun p => p_username p =? n) sp)),
           d)
  end.

(** [CREATE TABLE IF NOT EXISTS student_progress (...)]. *)
Definition create_progress (d : db) : sql_result unit :=
  match student_progress d with
  | Some _ => inr (tt, d)
  | None => inr (tt, set_progress [] d)
  end.

(** [INSERT INTO student_progress (username, question_id, completed_at)
    VALUES ($1, $2, NOW()) ON CONFLICT (username, question_id) DO UPDATE
    SET completed_at = NOW()]. *)
Definition upsert_progress (username : jsval) (question_id : option Z)
           (now : Z) (d : db) : sql_result unit :=
  match student_progress d with
  | None => inl (UndefinedTable "student_progress")
  | Some sp =>
      match bind_text username, bind_int4 question_id with
      | Some n, Some q => inr (tt, set_progress (upsert_row n q now sp) d)
      | _, _ => inl InvalidParameter
      end
  end.

(** The sort key of the leaderboard: [questions_done DESC, u.username
    ASC]. *)
Definition board_leb (a b : board_row) : bool :=
  (b_questions_done b <? b_questions_done a)%Z
  || ((b_questions_done a =? b_questions_done b)%Z
      && collate_leb (b_username a) (b_username b)).

Fixpoint insert_sorted (x : board_row) (l : list board_row) : list board_row :=
  match l with
  | [] => [x]
  | y :: rest => if board_leb x y then x :: l else y :: insert_sorted x rest
  end.

(** [ORDER BY]: a stable insertion sort on the key. *)
Definition order_by (l : list board_row) : list board_row :=
  fold_right insert_sorted [] l.

(** The query of [/api/leaderboard]. *)
Definition leaderboard_query (d : db) : sql_result (list board_row) :=
  match users d, student_progress d with
  | None, _ => inl (UndefinedTable "users")
  | Some _, None => inl (UndefinedTable "student_progress")
  | Some us, Some sp => inr (order_by (group_by_user (left_join us sp)), d)
  end.

End Queries.

(* ================================================================== *)
(** ** Requests, responses and the effects of a handler *)

(** What a JavaScript [throw] carries in this program. *)
Inductive error : Type :=
| ConfigError (message : string)
| StorageFault
| SqlError (e : sql_error)
| TypeError
| SyntaxError
| NetworkError.

Inductive sql_stmt : Type :=
| CreateUsers
| SelectUserId
| InsertUser
| SelectUser
| SelectProgress
| CreateProgress
| UpsertProgress
| LeaderboardQuery.

(** The effects a handler has on the outside, in order. *)
Inductive event : Type :=
| DbQuery (q : sql_stmt)
| DbEnd
| Fetch (url prompt : string)
| ConsoleLog (text : string)
| ConsoleError (label : string) (cause : error)
| ConsoleErrorText (label text : string).

(** [res.status(n).json(body)]; [Unhandled] when the handler throws outside
    every [try]. *)
Inductive response : Type :=
| Respond (status : Z) (body : json)
| Unhandled (e : error).

(** The body of a request: the fields of the JSON object. *)
Definition body : Type := list (string * json).

(** What the process finds around one request: its environment variables,
    the database clock [NOW()], and for each statement it issues (in order)
    whether the storage layer fails on it. *)
Record env : Type := {
  DATABASE_URL : option string;
  GROQ_API_KEY : option string;
  now : Z;
  faults : list bool
}.

(** What [fetch] gives: a rejected promise, or a response with its [ok]
    flag and its text. *)
Inductive fetch_outcome : Type :=
| FetchRejected
| FetchResponse (ok : bool) (text : string).

Inductive outcome (A : Type) : Type :=
| Ok (a : A)
| Throw (e : error).

Arguments Ok {A} a.
Arguments Throw {A} e.

(** The state one handler run threads: the store, the number of statements
    issued, whether [sql] was assigned, and the effects so far. *)
Record session : Type := {
  store : db;
  issued : nat;
  sql : bool;
  trace : list event
}.

Definition M (A : Type) : Type := session -> outcome A * session.

Definition ret {A : Type} (a : A) : M A := fun s => (Ok a, s).

Definition bind {A B : Type} (m : M A) (k : A -> M B) : M B :=
  fun s =>
    match m s with
    | (Ok a, s') => k a s'
    | (Throw e, s') => (Throw e, s')
    end.

Definition throw {A : Type} (e : error) : M A := fun s => (Throw e, s).

Declare Scope handler_scope.
Delimit Scope handler_scope with handler.

Notation "x <- m ;; k" := (bind m (fun x => k))
  (at level 61, m at next level, right associativity) : handler_scope.
Notation "m ;; k" := (bind m (fun _ => k))
  (at level 61, right associativity) : handler_scope.

Local Open Scope handler_scope.

(** [try { body } catch (err) { handler }]. *)
Definition try_catch {A : Type} (body : M A) (handler : error -> M A) : M A :=
  fun s =>
    match body s with
    | (Ok a, s') => (Ok a, s')
    | (Throw e, s') => handler e s'
    end.

(** [try { body } finally { fin }]: [fin] runs on every exit path. *)
Definition try_finally {A : Type} (body : M A) (fin : M unit) : M A :=
  fun s =>
    match body s with
    | (o, s') =>
        match fin s' with
        | (Ok _, s'') => (o, s'')
        | (Throw e, s'') => (Throw e, s'')
        end
    end.

Definition emit (e : event) : M unit :=
  fun s => (Ok tt, {| store := store s; issued := issued s; sql := sql s;
                      trace := trace s ++ [e] |}).

Definition env_set (v : option string) : bool :=
  truthy (option_map JStr v).

Section Handlers.
Context {P : Platform}.
Variable E : env.

(** [getDb()]: throws when [DATABASE_URL] is not set; the driver connects
    lazily, on the first statement. *)
Definition getDb : M unit :=
  fun s =>
    if env_set (DATABASE_URL E)
    then (Ok tt, {| store := store s; issued := issued s; sql := true;
                    trace := trace s |})
    else (Throw (ConfigError "DATABASE_URL is not set"), s).

(** [await sql`...`]: the statement fails when the storage layer does, and
    otherwise runs on the store. *)
Definition query {A : Type} (q : sql_stmt) (run : db -> sql_result A) : M A :=
  fun s =>
    let s1 := {| store := store s; issued := S (issued s); sql := sql s;
                 trace := trace s ++ [DbQuery q] |} in
    if nth (issued s) (faults E) false
    then (Throw StorageFault, s1)
    else match run (store s) with
         | inl e => (Throw (SqlError e), s1)
         | inr (a, d) =>
             (Ok a, {| store := d; issued := issued s1; sql := sql s1;
                       trace := trace s1 |})
         end.

(** [if (sql) await sql.end({ timeout: 5 }).catch(() => {})]. *)
Definition db_end : M unit :=
  fun s => if sql s then emit DbEnd s else (Ok tt, s).

Definition field (k : string) (b : body) : jsval := assoc k b.

(** A property of an object literal; [JSON.stringify] leaves out the
    properties whose value is [undefined]. *)
Definition member (k : string) (v : jsval) : list (string * json) :=
  match v with
  | Some x => [(k, x)]
  | None => []
  end.

Definition error_body (message : string) : json :=
  JObj [("error", JStr message)].

(* ---------------------------------------------------------------- *)
(** *** [POST /api/signup] *)

Definition signup (req : body) : M response :=
  let username := field "username" req in
  let firstName := field "firstName" req in
  let lastName := field "lastName" req in
  let passwordHash := field "passwordHash" req in
  if negb (truthy username) || negb (truthy firstName)
     || negb (truthy lastName) || negb (truthy passwordHash)
  then ret (Respond 400 (error_body "Missing fields"))
  else
    try_finally
      (try_catch
         (getDb ;;
          query CreateUsers create_users ;;
          existing <- query SelectUserId (select_user_id username) ;;
          if (0 <? List.length existing)%nat
          then ret (Respond 409
                      (error_body ("Username " ++ dquote ++ to_string username
                                   ++ dquote ++ " is already taken.")))
          else
            query InsertUser
                  (insert_user username firstName lastName passwordHash (now E)) ;;
            ret (Respond 200
                   (JObj ([("success", JBool true)]
                          ++ member "username" username
                          ++ member "firstName" firstName
                          ++ member "lastName" lastName))))
         (fun err =>
            emit (ConsoleError "Signup error:" err) ;;
            ret (Respond 500 (error_body "Server error during signup"))))
      db_end.

(* ---------------------------------------------------------------- *)
(** *** [POST /api/login] *)

Definition login (req : body) : M response :=
  let username := field "username" req in
  let passwordHash := field "passwordHash" req in
  if negb (truthy username) || negb (truthy passwordHash)
  then ret (Respond 400 (error_body "Missing fields"))
  else
    try_finally
      (try_catch
         (getDb ;;
          rows <- query SelectUser (select_user username) ;;
          match rows with
          | [] =>
              ret (Respond 401
                     (error_body "Username not found. Check spelling or sign up."))
          | user :: _ =>
              if negb (strict_eq_string passwordHash (u_password_hash user))
              then ret (Respond 401 (error_body "Incorrect password."))
              else
                completedIds <- query SelectProgress (select_progress username) ;;
                ret (Respond 200
                       (JObj [("success", JBool true);
                              ("username", JStr (u_username user));
                              ("firstName", JStr (u_first_name user));
                              ("lastName", JStr (u_last_name user));
                              ("completedIds", JArr (map JNum completedIds))]))
          end)
         (fun err =>
            emit (ConsoleError "Login error:" err) ;;
            ret (Respond 500 (error_body "Server error during login"))))
      db_end.

(* ---------------------------------------------------------------- *)
(** *** [POST /api/grade] *)

Definition groq_url : string :=
  "https://api.groq.com/openai/v1/chat/completions".

Definition nl : string := String (ascii_of_nat 10) "".

Definition quoted (s : string) : string := dquote ++ s ++ dquote.

(** The grading prompt, a template over the question and the answer. *)
Definition prompt (question answer : jsval) : string :=
  "You are a strict but fair computer programming examiner grading a student's answer."
  ++ nl ++ nl ++ "Question: " ++ to_string question
  ++ nl ++ nl ++ "Student's Answer: " ++ to_string answer
  ++ nl ++ nl
  ++ "Grade this answer. Respond ONLY with a valid JSON object in exactly this format:"
  ++ nl ++ "- If the answer is correct or substantially correct: {"
  ++ quoted "status" ++ ": " ++ quoted "Correct" ++ "}"
  ++ nl ++ "- If the answer is wrong or incomplete: {"
  ++ quoted "status" ++ ": " ++ quoted "Incorrect" ++ ", " ++ quoted "hint" ++ ": "
  ++ quoted "One short, helpful hint to guide the student (max 20 words)" ++ "}"
  ++ nl ++ nl
  ++ "Be strict: vague or incomplete answers should be marked Incorrect. But do not penalise for minor grammar or formatting issues — focus on conceptual correctness."
  ++ nl ++ "Respond with JSON only. No extra text.".

(** [aiData.choices?.[0]?.message?.content?.trim() || '']: reading
    [choices] from [null] throws, and so does calling [trim] on a content
    that is not a string. *)
Definition raw_content (aiData : json) : outcome string :=
  match aiData with
  | JNull => Throw TypeError
  | _ =>
      match opt_chain (prop "content")
              (opt_chain (prop "message")
                 (opt_chain elem0 (prop "choices" aiData))) with
      | None => Ok ""
      | Some JNull => Ok ""
      | Some (JStr s) => Ok (trim s)
      | Some _ => Throw TypeError
      end
  end.

Definition correct_verdict : json := JObj [("status", JStr "Correct")].

Definition incorrect_verdict : json :=
  JObj [("status", JStr "Incorrect");
        ("hint", JStr "Review the concept and try again.")].

(** The inner [try]/[catch]: strict parse of the text without its code
    fences, then the substring fallback on the raw text. *)
Definition parse_verdict (raw : string) : json :=
  let clean := trim (strip_fences raw) in
  match JSON_parse clean with
  | Some parsed => parsed
  | None =>
      if includes "correct" (toLowerCase raw)
      then correct_verdict
      else incorrect_verdict
  end.

Definition of_option {A : Type} (o : option A) (e : error) : M A :=
  match o with Some a => ret a | None => throw e end.

Definition of_outcome {A : Type} (o : outcome A) : M A :=
  fun s => (o, s).

(** The outer [try]/[catch] around the call of the judgment service: an
    early response ([inl]) or the parsed verdict ([inr]). *)
Definition ask (question answer : jsval) (ai : fetch_outcome)
  : M (response + json) :=
  try_catch
    (emit (Fetch groq_url (prompt question answer)) ;;
     match ai with
     | FetchRejected => throw NetworkError
     | FetchResponse false errText =>
         emit (ConsoleErrorText "Groq API error:" errText) ;;
         ret (inl (Respond 502 (error_body "AI service error")))
     | FetchResponse true text =>
         aiData <- of_option (JSON_parse text) SyntaxError ;;
         raw <- of_outcome (raw_content aiData) ;;
         ret (inr (parse_verdict raw))
     end)
    (fun err =>
       emit (ConsoleError "Groq fetch error:" err) ;;
       ret (inl (Respond 500 (error_body "Internal server error during grading")))).

(** [username && questionId !== undefined && questionId !== null]. *)
Definition canSave (username questionId : jsval) : jsval :=
  js_and (js_and username (js_bool (not_undefined questionId)))
         (js_bool (not_null questionId)).

(** [parsed.status]: reading a property of [null] throws. *)
Definition status_of (parsed : json) : M jsval :=
  match parsed with
  | JNull => throw TypeError
  | _ => ret (prop "status" parsed)
  end.

(** The persistence step of the grader. *)
Definition persist (username questionId : jsval) : M unit :=
  try_finally
    (try_catch
       (getDb ;;
        query CreateProgress create_progress ;;
        query UpsertProgress
              (upsert_progress username (Number questionId) (now E)) ;;
        emit (ConsoleLog ("Saved: username=" ++ quoted (to_string username)
                          ++ " question_id=" ++ to_string questionId)))
       (fun dbErr => emit (ConsoleError "Database error (non-fatal):" dbErr)))
    db_end.

Definition grade (req : body) (ai : fetch_outcome) : M response :=
  let question := field "question" req in
  let answer := field "answer" req in
  let username := field "username" req in
  let questionId := field "questionId" req in
  if negb (truthy question) || negb (truthy answer)
  then ret (Respond 400 (error_body "Missing question or answer"))
  else
    let can := canSave username questionId in
    if negb (env_set (GROQ_API_KEY E))
    then ret (Respond 500 (error_body "GROQ_API_KEY is not configured"))
    else
      r <- ask question answer ai ;;
      match r with
      | inl early => ret early
      | inr parsed =>
          status <- status_of parsed ;;
          (if truthy (js_and (js_bool (strict_eq_string status "Correct")) can)
           then persist username questionId
           else ret tt) ;;
          ret (Respond 200 parsed)
      end.

(* ---------------------------------------------------------------- *)
(** *** [GET /api/leaderboard] *)

Definition board_entry (row : board_row) : json :=
  JObj [("username", JStr (b_username row));
        ("firstName", JStr (b_first_name row));
        ("lastName", JStr (b_last_name row));
        ("done", JNum (b_questions_done row))].

Definition leaderboard : M response :=
  try_finally
    (try_catch
       (getDb ;;
        rows <- query LeaderboardQuery leaderboard_query ;;
        ret (Respond 200 (JArr (map board_entry rows))))
       (fun err =>
          emit (ConsoleError "Leaderboard DB error:" err) ;;
          ret (Respond 500 (error_body "Could not load leaderboard"))))
    db_end.

(* ---------------------------------------------------------------- *)
(** *** Running a handler on a store *)

Definition start (d : db) : session :=
  {| store := d; issued := 0; sql := false; trace := [] |}.

(** The response, the store the request leaves behind, and its effects. *)
Definition run (h : M response) (d : db) : response * db * list event :=
  match h (start d) with
  | (Ok r, s) => (r, store s, trace s)
  | (Throw e, s) => (Unhandled e, store s, trace s)
  end.

Definition reply (h : M response) (d : db) : response := fst (fst (run h d)).
Definition store_after (h : M response) (d : db) : db := snd (fst (run h d)).
Definition effects (h : M response) (d : db) : list event := snd (run h d).

End Handlers.

(* ================================================================== *)
(** ** A platform for the examples *)

(** [String.leb] is transitive; it is the collation of the sample
    platform (the byte order, Postgres' collation [C]). *)
Lemma ascii_compare_refl (a : ascii) : Ascii.compare a a = Eq.
Proof. unfold Ascii.compare. apply N.compare_refl. Qed.

Lemma string_compare_trans_lt (a b c : string) :
  String.compare a b <> Gt -> String.compare b c <> Gt -> String.compare a c <> Gt.
Proof.
  revert b c.
  induction a as [|x a IH]; intros [|y b] [|z c]; simpl; try congruence.
  destruct (Ascii.compare x y) eqn:Hxy; try congruence.
  - apply Ascii.compare_eq_iff in Hxy. subst y.
    destruct (Ascii.compare x z) eqn:Hxz; try congruence.
    apply IH.
  - intros _.
    destruct (Ascii.compare y z) eqn:Hyz; try congruence.
    + apply Ascii.compare_eq_iff in Hyz. subst z. now rewrite Hxy.
    + intros _. unfold Ascii.compare in *.
      rewrite N.compare_lt_iff in Hxy, Hyz.
      assert (H : (N_of_ascii x < N_of_ascii z)%N) by lia.
      rewrite <- N.compare_lt_iff in H. now rewrite H.
Qed.

Lemma string_leb_trans (a b c : string) :
  String.leb a b = true -> String.leb b c = true -> String.leb a c = true.
Proof.
  unfold String.leb. intros Hab Hbc.
  pose proof (string_compare_trans_lt a b c) as H.
  destruct (String.compare a b); try discriminate;
    destruct (String.compare b c); try discriminate;
    destruct (String.compare a c); try reflexivity;
    exfalso; apply H; congruence.
Qed.

(** The ASCII trim returns a substring. *)
Lemma string_app_assoc (a b c : string) :
  ((a ++ b) ++ c = a ++ (b ++ c))%string.
Proof. induction a as [|x a IH]; cbn; [reflexivity|now rewrite IH]. Qed.

Lemma trim_start_suffix (s : string) :
  exists ws, s = (ws ++ trim_start s)%string.
Proof.
  induction s as [|c s [ws IH]]; [now exists ""|].
  cbn [trim_start]. destruct (is_space c).
  - exists (String c ws). cbn. now rewrite <- IH.
  - now exists "".
Qed.

Lemma trim_end_prefix (s : string) :
  exists ws, s = (trim_end s ++ ws)%string.
Proof.
  induction s as [|c s [ws IH]]; [now exists ""|].
  cbn [trim_end]. destruct (trim_end s) as [|y r] eqn:Hr.
  - destruct (is_space c).
    + exists (String c s). reflexivity.
    + exists s. reflexivity.
  - exists ws. cbn. cbn in IH. now rewrite <- IH.
Qed.

Lemma trim_ascii_within (s : string) :
  exists pre post, s = (pre ++ trim_ascii s ++ post)%string.
Proof.
  unfold trim_ascii.
  destruct (trim_start_suffix s) as [pre Hpre].
  destruct (trim_end_prefix (trim_start s)) as [post Hpost].
  exists pre, post. now rewrite <- Hpost.
Qed.

(** [JSON.parse] restricted to a finite table of texts; every other text is
    a [SyntaxError]. *)
Fixpoint table_parse (known : list (string * json)) (text : string) : option json :=
  match known with
  | [] => None
  | (t, v) :: rest => if t =? text then Some v else table_parse rest text
  end.

(** The text [{"choices":[{"message":{"content":c}}]}] the judgment service
    answers with, for a content [c] without characters to escape. *)
Definition envelope_text (c : string) : string :=
  "{" ++ dquote ++ "choices" ++ dquote ++ ":[{" ++ dquote ++ "message" ++ dquote
  ++ ":{" ++ dquote ++ "content" ++ dquote ++ ":" ++ dquote ++ c ++ dquote ++ "}}]}".

Definition envelope (c : string) : json :=
  JObj [("choices", JArr [JObj [("message", JObj [("content", JStr c)])]])].

Definition newline : string := String (ascii_of_nat 10) "".

(** The verdict [{"status": "Correct"}] as the service writes it, and the
    same in a fenced block. *)
Definition verdict_text : string :=
  "{" ++ dquote ++ "status" ++ dquote ++ ": " ++ dquote ++ "Correct" ++ dquote
  ++ "}".

Definition fenced_verdict : string :=
  "```json" ++ newline ++ verdict_text ++ newline ++ "```".

Definition sample_texts : list (string * json) :=
  [ (verdict_text, JObj [("status", JStr "Correct")]);
    (envelope_text "Correct", envelope "Correct");
    (envelope_text "Wrong.", envelope "Wrong.");
    (envelope_text "null", envelope "null");
    ("null", JNull) ].

(** ToString on the values of the examples: scalars print as in
    JavaScript, an array joins its elements with commas, an object prints as
    [[object Object]]. *)
Fixpoint js_to_string (v : json) : string :=
  match v with
  | JNull => "null"
  | JBool true => "true"
  | JBool false => "false"
  | JNum n => NilZero.string_of_int (Z.to_int n)
  | JStr s => s
  | JArr items =>
      (fix join (l : list json) : string :=
         match l with
         | [] => ""
         | x :: rest =>
             let e := match x with JNull => "" | _ => js_to_string x end in
             match rest with
             | [] => e
             | _ => (e ++ "," ++ join rest)%string
             end
         end) items
  | JObj _ => "[object Object]"
  end.

(** The platform of the examples: the texts of the examples are ASCII, for
    which [trim] is [trim_ascii]; rows are returned in table order.  No
    example converts a string or an object to a number, or binds a value
    that is not a string to a [TEXT] parameter: both are answered with a
    failure here. *)
#[export] Instance sample_platform : Platform := {|
  JSON_parse := table_parse sample_texts;
  trim := trim_ascii;
  trim_within := trim_ascii_within;
  row_order := fun l => l;
  row_order_perm := fun l => Permutation_refl l;
  ToNumber_ext := fun _ => None;
  ToString_ext := fun v => match v with
                          | Some x => js_to_string x
                          | None => "undefined"
                          end;
  text_param_ext := fun _ => None;
  collate_leb := String.leb;
  collate_total := String.leb_total;
  collate_trans := string_leb_trans
|}.

Definition sample_env (t : Z) : env :=
  {| DATABASE_URL := Some "postgres://db"; GROQ_API_KEY := Some "key";
     now := t; faults := [] |}.

Definition ana_signup : body :=
  [("username", JStr "ana"); ("firstName", JStr "Ana");
   ("lastName", JStr "Lee"); ("passwordHash", JStr "h1")].

Definition ana_login : body :=
  [("username", JStr "ana"); ("passwordHash", JStr "h1")].

Definition ana_grade (q : json) : body :=
  [("question", JStr "What is a pointer?"); ("answer", JStr "An address.");
   ("username", JStr "ana"); ("questionId", q)].

(* ================================================================== *)
(** ** The grader: validation, eligibility, persistence *)

Arguments prompt : simpl never.
Arguments to_string : simpl never.

(** The storage layer is healthy for a request: the connection string is
    configured and no statement fails for an outside reason. *)
Definition healthy (E : env) : bool :=
  env_set (DATABASE_URL E) && forallb negb (faults E).

Lemma healthy_url (E : env) : healthy E = true -> env_set (DATABASE_URL E) = true.
Proof. unfold healthy. intros H. now apply andb_true_iff in H. Qed.

Lemma healthy_nth (E : env) (k : nat) :
  healthy E = true -> nth k (faults E) false = false.
Proof.
  unfold healthy. intros H. apply andb_true_iff in H. destruct H as [_ H].
  revert k. induction (faults E) as [|b l IH]; intros [|k]; simpl in *; trivial.
  - apply andb_true_iff in H. destruct H as [H _]. now destruct b.
  - apply andb_true_iff in H. destruct H as [_ H]. now apply IH.
Qed.

(** The rows of the completion table, none when it was never created. *)
Definition progress_rows (d : db) : list progress_row :=
  match student_progress d with
  | Some sp => sp
  | None => []
  end.

Definition is_query (e : event) : bool :=
  match e with DbQuery _ => true | _ => false end.

Definition is_fetch (e : event) : bool :=
  match e with Fetch _ _ => true | _ => false end.

Section GraderFacts.
Context {P : Platform}.

(** The verdict the call of the judgment service ends in, as a value. *)
Inductive judgement : Type :=
| Verdict (parsed : json)
| UpstreamError (errText : string)
| Failed (e : error).

Definition judge (ai : fetch_outcome) : judgement :=
  match ai with
  | FetchRejected => Failed NetworkError
  | FetchResponse false errText => UpstreamError errText
  | FetchResponse true text =>
      match JSON_parse text with
      | None => Failed SyntaxError
      | Some aiData =>
          match raw_content aiData with
          | Throw e => Failed e
          | Ok raw => Verdict (parse_verdict raw)
          end
      end
  end.

(** [parsed.status === 'Correct'], for a verdict that is not [null]. *)
Definition says_correct (parsed : json) : bool :=
  match parsed with
  | JNull => false
  | _ => strict_eq_string (prop "status" parsed) "Correct"
  end.

(** A request the grader takes to the judgment service. *)
Definition gradable (E : env) (req : body) : bool :=
  truthy (field "question" req) && truthy (field "answer" req)
  && env_set (GROQ_API_KEY E).

Definition fetched (req : body) (s : session) : session :=
  {| store := store s; issued := issued s; sql := sql s;
     trace := trace s ++ [Fetch groq_url (prompt (field "question" req)
                                                 (field "answer" req))] |}.

Lemma ask_verdict (req : body) (ai : fetch_outcome) (parsed : json) (s : session) :
  judge ai = Verdict parsed ->
  ask (field "question" req) (field "answer" req) ai s
  = (Ok (inr parsed), fetched req s).
Proof.
  unfold judge, ask, try_catch, bind, emit, of_option, of_outcome, ret, fetched.
  destruct ai as [|[|] text]; try discriminate.
  destruct (JSON_parse text) as [aiData|]; try discriminate.
  simpl. destruct (raw_content aiData) as [raw|e]; try discriminate.
  intros H. now inversion H.
Qed.

(** The grader on a request whose verdict is [parsed]: what is left to run
    after the judgment service answered. *)
Lemma grade_after_verdict (E : env) (req : body) (ai : fetch_outcome)
      (parsed : json) (s : session) :
  gradable E req = true ->
  judge ai = Verdict parsed ->
  says_correct parsed = true ->
  grade E req ai s
  = bind (if truthy (canSave (field "username" req) (field "questionId" req))
          then persist E (field "username" req) (field "questionId" req)
          else ret tt)
         (fun _ => ret (Respond 200 parsed)) (fetched req s).
Proof.
  unfold gradable, grade. intros Hg Hj Hc.
  apply andb_true_iff in Hg. destruct Hg as [Hg Hk].
  apply andb_true_iff in Hg. destruct Hg as [Hq Ha].
  rewrite Hq, Ha, Hk. cbn [negb orb].
  unfold bind at 1. rewrite (ask_verdict req ai parsed s Hj).
  unfold says_correct in Hc.
  destruct parsed; try discriminate; unfold status_of, bind at 1, ret at 1;
    rewrite Hc; unfold js_and at 1, js_bool at 1; simpl truthy at 1;
    reflexivity.
Qed.

(** The persistence step never throws. *)
Lemma persist_returns (E : env) (u q : jsval) (s : session) :
  exists s', persist E u q s = (Ok tt, s').
Proof.
  unfold persist, try_finally, try_catch, bind, getDb, query, db_end, emit, ret.
  destruct (env_set (DATABASE_URL E)); simpl;
    repeat match goal with
           | |- context [if ?c then _ else _] => destruct c; simpl
           | |- context [match create_progress ?d with _ => _ end] =>
               destruct (create_progress d) as [?|[[] ?]]; simpl
           | |- context [match upsert_progress ?a ?b ?c ?d with _ => _ end] =>
               destruct (upsert_progress a b c d) as [?|[[] ?]]; simpl
           end; eauto.
Qed.

(** The effects of a persistence step that succeeds. *)
Definition saved (u q : jsval) : list event :=
  [DbQuery CreateProgress; DbQuery UpsertProgress;
   ConsoleLog ("Saved: username=" ++ quoted (to_string u)
               ++ " question_id=" ++ to_string q);
   DbEnd].

(** On a healthy storage layer, and for parameters the columns accept, the
    persistence step creates the table if needed and upserts the pair. *)
Lemma persist_healthy (E : env) (u q : jsval) (n : string) (z : Z) (s : session) :
  healthy E = true ->
  bind_text u = Some n ->
  bind_int4 (Number q) = Some z ->
  persist E u q s
  = (Ok tt, {| store := set_progress (upsert_row n z (now E) (progress_rows (store s)))
                                     (store s);
               issued := S (S (issued s));
               sql := true;
               trace := trace s ++ saved u q |}).
Proof.
  intros Hh Hu Hq.
  unfold persist, try_finally, try_catch, bind, getDb, query, db_end, emit, ret.
  rewrite (healthy_url E Hh). cbn [issued store sql trace].
  rewrite (healthy_nth E (issued s) Hh).
  unfold create_progress, upsert_progress, progress_rows, saved.
  destruct (student_progress (store s)) as [sp|] eqn:Hsp;
    cbn [issued store sql trace student_progress set_progress];
    rewrite (healthy_nth E (S (issued s)) Hh), ?Hsp, Hu, Hq;
    cbn [issued store sql trace student_progress set_progress users];
    rewrite <- !app_assoc; reflexivity.
Qed.

End GraderFacts.

Definition pair_of (r : progress_row) : string * Z :=
  (p_username r, p_question_id r).

(** What the upsert does to the rows: the pair is present afterwards, every
    row of the pair bears the new timestamp, and the rows of the other pairs
    are untouched. *)
Lemma upsert_row_effect (u : string) (q t : Z) (sp : list progress_row) :
  let sp' := upsert_row u q t sp in
  existsb (same_pair u q) sp' = true
  /\ (forall r, In r sp' -> same_pair u q r = true -> p_completed_at r = t)
  /\ filter (fun r => negb (same_pair u q r)) sp'
     = filter (fun r => negb (same_pair u q r)) sp
  /\ map pair_of sp'
     = map pair_of sp ++ (if existsb (same_pair u q) sp then [] else [(u, q)]).
Proof.
  unfold upsert_row.
  destruct (existsb (same_pair u q) sp) eqn:Hex; cbv zeta.
  - repeat split.
    + rewrite existsb_exists in *.
      destruct Hex as [r [Hin Hr]].
      exists {| p_username := p_username r; p_question_id := p_question_id r;
                p_completed_at := t |}.
      split; [|exact Hr].
      apply in_map_iff. exists r. now rewrite Hr.
    + intros r Hin Hr. apply in_map_iff in Hin.
      destruct Hin as [r0 [Heq Hin]].
      destruct (same_pair u q r0) eqn:H0; subst r; [reflexivity|congruence].
    + clear Hex. induction sp as [|r sp IH]; [reflexivity|].
      cbn [map filter]. destruct (same_pair u q r) eqn:Hr.
      * unfold same_pair in *. cbn [p_username p_question_id].
        rewrite Hr. cbn [negb]. exact IH.
      * rewrite Hr. cbn [negb]. now rewrite IH.
    + rewrite app_nil_r, map_map. apply map_ext.
      intros r. now destruct (same_pair u q r).
  - repeat split.
    + rewrite existsb_app. cbn. unfold same_pair. cbn.
      now rewrite String.eqb_refl, Z.eqb_refl, orb_true_r.
    + intros r Hin Hr. apply in_app_or in Hin. destruct Hin as [Hin|[<-|[]]].
      * assert (existsb (same_pair u q) sp = true) by (apply existsb_exists; eauto).
        congruence.
      * reflexivity.
    + rewrite filter_app. cbn. unfold same_pair at 2. cbn.
      now rewrite String.eqb_refl, Z.eqb_refl, app_nil_r.
    + now rewrite map_app.
Qed.

(* ------------------------------------------------------------------ *)
(** *** Claims on the grader *)

(** C9. A grade request whose question or answer is missing (or otherwise
    falsy) is answered 400; a request with both but without a configured
    service credential is answered 500.  In both cases the handler has no
    effect at all: in particular the judgment service is not contacted and
    the store is untouched. *)
Theorem grade_rejected_before_fetch {P : Platform} (E : env) (req : body)
        (ai : fetch_outcome) (d : db) :
  (truthy (field "question" req) = false \/ truthy (field "answer" req) = false ->
   run (grade E req ai) d
   = (Respond 400 (error_body "Missing question or answer"), d, []))
  /\ (truthy (field "question" req) = true ->
      truthy (field "answer" req) = true ->
      env_set (GROQ_API_KEY E) = false ->
      run (grade E req ai) d
      = (Respond 500 (error_body "GROQ_API_KEY is not configured"), d, [])
      /\ existsb is_fetch (effects (grade E req ai) d) = false).
Proof.
  split.
  - intros H. unfold run, grade.
    assert (Hor : negb (truthy (field "question" req))
                  || negb (truthy (field "answer" req)) = true).
    { destruct H as [H|H]; rewrite H; cbn; auto using orb_true_r. }
    rewrite Hor. reflexivity.
  - intros Hq Ha Hk. unfold effects, run, grade.
    rewrite Hq, Ha, Hk. cbn. split; reflexivity.
Qed.

Lemma grade_rejected_before_fetch_witness :
  run (grade (sample_env 0) [("answer", JStr "An address.")] FetchRejected) empty_db
  = (Respond 400 (error_body "Missing question or answer"), empty_db, [])
  /\ run (grade {| DATABASE_URL := Some "postgres://db"; GROQ_API_KEY := None;
                   now := 0; faults := [] |}
                (ana_grade (JNum 3)) FetchRejected) empty_db
     = (Respond 500 (error_body "GROQ_API_KEY is not configured"), empty_db, []).
Proof.
  split.
  - apply (grade_rejected_before_fetch (sample_env 0)
             [("answer", JStr "An address.")] FetchRejected empty_db).
    left. reflexivity.
  - apply (grade_rejected_before_fetch
             {| DATABASE_URL := Some "postgres://db"; GROQ_API_KEY := None;
                now := 0; faults := [] |}
             (ana_grade (JNum 3)) FetchRejected empty_db); reflexivity.
Defined.

(** The truth value of [canSave], as line 178 tests it. *)
Lemma canSave_truthy (u q : jsval) :
  truthy (canSave u q) = truthy u && not_undefined q && not_null q.
Proof.
  unfold canSave, js_and, js_bool.
  destruct (truthy u) eqn:Hu; cbn [andb].
  - destruct q as [[]|]; reflexivity.
  - rewrite Hu. exact Hu.
Qed.

Section GraderRuns.
Context {P : Platform}.
Variables (E : env) (req : body) (ai : fetch_outcome) (parsed : json) (d : db).
Hypothesis Hgradable : gradable E req = true.
Hypothesis Hverdict : judge ai = Verdict parsed.
Hypothesis Hcorrect : says_correct parsed = true.

Let username := field "username" req.
Let questionId := field "questionId" req.
Let asked := Fetch groq_url (prompt (field "question" req) (field "answer" req)).

(** A correct verdict that is not eligible for persistence: the verdict is
    returned and nothing but the call of the service happened. *)
Lemma grade_run_skipped :
  truthy (canSave username questionId) = false ->
  run (grade E req ai) d = (Respond 200 parsed, d, [asked]).
Proof.
  intros Hcan. unfold run.
  rewrite (grade_after_verdict E req ai parsed (start d) Hgradable Hverdict Hcorrect).
  fold username questionId. rewrite Hcan. reflexivity.
Qed.

(** A correct verdict that is eligible, on a healthy storage layer and with
    parameters the columns accept: the verdict is returned and the pair is
    upserted. *)
Lemma grade_run_saved (n : string) (q : Z) :
  truthy (canSave username questionId) = true ->
  healthy E = true ->
  bind_text username = Some n ->
  bind_int4 (Number questionId) = Some q ->
  run (grade E req ai) d
  = (Respond 200 parsed,
     set_progress (upsert_row n q (now E) (progress_rows d)) d,
     asked :: saved username questionId).
Proof.
  intros Hcan Hh Hn Hq. unfold run.
  rewrite (grade_after_verdict E req ai parsed (start d) Hgradable Hverdict Hcorrect).
  fold username questionId. rewrite Hcan. unfold bind.
  rewrite (persist_healthy E username questionId n q _ Hh Hn Hq).
  reflexivity.
Qed.

(** Whatever the storage layer does, a correct verdict is answered 200 with
    the verdict. *)
Lemma grade_reply_verdict : reply (grade E req ai) d = Respond 200 parsed.
Proof.
  unfold reply, run.
  rewrite (grade_after_verdict E req ai parsed (start d) Hgradable Hverdict Hcorrect).
  fold username questionId.
  destruct (truthy (canSave username questionId)); [|reflexivity].
  unfold bind.
  destruct (persist_returns E username questionId (fetched req (start d)))
    as [s' ->].
  reflexivity.
Qed.

End GraderRuns.

(** C1. For a grade request whose verdict is Correct, the verdict is returned
    with status 200 and:
    - when the username is missing (or falsy) or the questionId is missing
      ([undefined] or [null]), the store is unchanged and no statement is
      issued: the only effect is the call of the judgment service;
    - when both are supplied, the storage layer is healthy and the columns
      accept the parameters (a username without U+0000, a questionId whose
      number is an [INTEGER]), the pair (username, Number(questionId)) is
      upserted: if the completion table holds the pair, its rows are those
      of before with the timestamp of the pair replaced by the clock of the
      request, and no row is added; otherwise one row with the pair and the
      clock of the request is appended.  The user table is untouched and the
      effects are the call of the service, the two statements, the log line
      and the end of the connection. *)
Theorem grade_persists_iff_eligible {P : Platform} (E : env) (req : body)
        (ai : fetch_outcome) (parsed : json) (d : db) :
  gradable E req = true ->
  judge ai = Verdict parsed ->
  says_correct parsed = true ->
  reply (grade E req ai) d = Respond 200 parsed
  /\ (truthy (field "username" req) = false
      \/ field "questionId" req = undefined
      \/ field "questionId" req = Some JNull ->
      store_after (grade E req ai) d = d
      /\ existsb is_query (effects (grade E req ai) d) = false)
  /\ (forall n q,
         truthy (field "username" req) = true ->
         not_undefined (field "questionId" req) = true ->
         not_null (field "questionId" req) = true ->
         healthy E = true ->
         bind_text (field "username" req) = Some n ->
         text_value n = true ->
         bind_int4 (Number (field "questionId" req)) = Some q ->
         store_after (grade E req ai) d
         = set_progress
             (if existsb (same_pair n q) (progress_rows d)
              then map (fun r =>
                          if same_pair n q r
                          then {| p_username := p_username r;
                                  p_question_id := p_question_id r;
                                  p_completed_at := now E |}
                          else r) (progress_rows d)
              else progress_rows d
                   ++ [{| p_username := n; p_question_id := q;
                          p_completed_at := now E |}])
             d
         /\ effects (grade E req ai) d
            = Fetch groq_url (prompt (field "question" req) (field "answer" req))
              :: saved (field "username" req) (field "questionId" req)).
Proof.
  intros Hg Hj Hc. split; [|split].
  - now apply grade_reply_verdict.
  - intros Hmiss.
    assert (Hcan : truthy (canSave (field "username" req) (field "questionId" req))
                   = false).
    { rewrite canSave_truthy.
      destruct Hmiss as [H|[H|H]]; rewrite H; cbn;
        auto using andb_false_r. now rewrite andb_false_r. }
    unfold store_after, effects.
    rewrite (grade_run_skipped E req ai parsed d Hg Hj Hc Hcan). now cbn.
  - intros n q Hu Hq1 Hq2 Hh Hn _ Hq.
    assert (Hcan : truthy (canSave (field "username" req) (field "questionId" req))
                   = true).
    { rewrite canSave_truthy, Hu, Hq1, Hq2. reflexivity. }
    unfold store_after, effects.
    rewrite (grade_run_saved E req ai parsed d Hg Hj Hc n q Hcan Hh Hn Hq).
    now cbn.
Qed.

Definition correct_answer : fetch_outcome :=
  FetchResponse true (envelope_text "Correct").

(** A store in which [ana] and [bob] completed question 3. *)
Definition two_completions : db :=
  {| users := None;
     student_progress :=
       Some [{| p_username := "ana"; p_question_id := 3; p_completed_at := 5 |};
             {| p_username := "bob"; p_question_id := 3; p_completed_at := 6 |}] |}.

Lemma grade_persists_iff_eligible_witness :
  reply (grade (sample_env 7) (ana_grade (JNum 3)) correct_answer) empty_db
  = Respond 200 correct_verdict
  /\ store_after (grade (sample_env 7) (ana_grade (JNum 3)) correct_answer) empty_db
     = {| users := None;
          student_progress := Some [{| p_username := "ana"; p_question_id := 3;
                                       p_completed_at := 7 |}] |}
  /\ store_after (grade (sample_env 7) (ana_grade (JNum 3)) correct_answer)
                 two_completions
     = {| users := None;
          student_progress :=
            Some [{| p_username := "ana"; p_question_id := 3; p_completed_at := 7 |};
                  {| p_username := "bob"; p_question_id := 3; p_completed_at := 6 |}] |}
  /\ store_after (grade (sample_env 7) (ana_grade JNull) correct_answer) empty_db
     = empty_db.
Proof.
  destruct (grade_persists_iff_eligible (sample_env 7) (ana_grade (JNum 3))
              correct_answer correct_verdict empty_db)
    as [Hr [_ Hs]]; try reflexivity.
  destruct (grade_persists_iff_eligible (sample_env 7) (ana_grade (JNum 3))
              correct_answer correct_verdict two_completions)
    as [_ [_ Hc]]; try reflexivity.
  destruct (grade_persists_iff_eligible (sample_env 7) (ana_grade JNull)
              correct_answer correct_verdict empty_db)
    as [_ [Hm _]]; try reflexivity.
  split; [exact Hr|split; [|split]].
  - exact (proj1 (Hs "ana" 3%Z eq_refl eq_refl eq_refl eq_refl eq_refl eq_refl
                     eq_refl)).
  - exact (proj1 (Hc "ana" 3%Z eq_refl eq_refl eq_refl eq_refl eq_refl eq_refl
                     eq_refl)).
  - apply Hm. right. right. reflexivity.
Defined.

(** C2. Once the verdict is Correct, the response does not depend on the
    storage layer: whatever the connection string, the faults of the
    statements, the clock and the store are, the handler answers 200 with
    the verdict, exactly as in a run where persistence succeeds. *)
Theorem grade_reply_ignores_storage {P : Platform} (E E' : env) (req : body)
        (ai : fetch_outcome) (parsed : json) (d d' : db) :
  gradable E req = true ->
  judge ai = Verdict parsed ->
  says_correct parsed = true ->
  GROQ_API_KEY E' = GROQ_API_KEY E ->
  reply (grade E' req ai) d' = Respond 200 parsed
  /\ reply (grade E' req ai) d' = reply (grade E req ai) d.
Proof.
  intros Hg Hj Hc Hk.
  assert (Hg' : gradable E' req = true).
  { unfold gradable in *. now rewrite Hk. }
  rewrite (grade_reply_verdict E req ai parsed d Hg Hj Hc).
  rewrite (grade_reply_verdict E' req ai parsed d' Hg' Hj Hc).
  now split.
Qed.

(** A request for which the second statement of the persistence step
    fails. *)
Definition failing_env (t : Z) : env :=
  {| DATABASE_URL := Some "postgres://db"; GROQ_API_KEY := Some "key";
     now := t; faults := [false; true] |}.

Lemma grade_reply_ignores_storage_witness :
  reply (grade (failing_env 7) (ana_grade (JNum 3)) correct_answer) empty_db
  = Respond 200 correct_verdict
  /\ reply (grade (failing_env 7) (ana_grade (JNum 3)) correct_answer) empty_db
     = reply (grade (sample_env 7) (ana_grade (JNum 3)) correct_answer) empty_db.
Proof.
  apply (grade_reply_ignores_storage (sample_env 7) (failing_env 7)
           (ana_grade (JNum 3)) correct_answer correct_verdict empty_db empty_db);
    reflexivity.
Defined.

(** The failing run of the witness does fail: the error is logged and no
    completion is stored. *)
Example failing_run_is_logged :
  run (grade (failing_env 7) (ana_grade (JNum 3)) correct_answer) empty_db
  = (Respond 200 correct_verdict,
     {| users := None; student_progress := Some [] |},
     [Fetch groq_url (prompt (Some (JStr "What is a pointer?"))
                             (Some (JStr "An address.")));
      DbQuery CreateProgress; DbQuery UpsertProgress;
      ConsoleError "Database error (non-fatal):" StorageFault; DbEnd]).
Proof. reflexivity. Qed.

(** C10. The eligibility check is asymmetric: the questionId counts as
    supplied when it is neither [undefined] nor [null], the username only
    when it is truthy.  So [canSave] is falsy for the username [""] with the
    questionId [0] and truthy for a non-empty username with the questionId
    [0]; a correct verdict leaves the store untouched in the first case, and
    upserts the pair (username, 0) in the second (on a healthy storage
    layer, for a username the [TEXT] column accepts: one without
    U+0000). *)
Theorem canSave_asymmetric {P : Platform} :
  (forall u q, truthy (canSave u q) = truthy u && not_undefined q && not_null q)
  /\ truthy (canSave (Some (JStr "")) (Some (JNum 0))) = false
  /\ (forall n, n <> "" -> truthy (canSave (Some (JStr n)) (Some (JNum 0))) = true)
  /\ (forall E req ai parsed d,
         gradable E req = true ->
         judge ai = Verdict parsed ->
         says_correct parsed = true ->
         field "questionId" req = Some (JNum 0) ->
         (field "username" req = Some (JStr "") ->
          store_after (grade E req ai) d = d
          /\ existsb is_query (effects (grade E req ai) d) = false)
         /\ (forall n,
                field "username" req = Some (JStr n) ->
                n <> "" ->
                text_value n = true ->
                healthy E = true ->
                store_after (grade E req ai) d
                = set_progress (upsert_row n 0 (now E) (progress_rows d)) d)).
Proof.
  assert (Hne : forall n, n <> "" -> truthy (Some (JStr n)) = true).
  { intros n Hn. cbn. apply negb_true_iff, String.eqb_neq, Hn. }
  split; [exact canSave_truthy|split; [reflexivity|split]].
  - intros n Hn. rewrite canSave_truthy, (Hne n Hn). reflexivity.
  - intros E req ai parsed d Hg Hj Hc Hq. split.
    + intros Hu. unfold store_after, effects.
      rewrite (grade_run_skipped E req ai parsed d Hg Hj Hc).
      * now cbn.
      * now rewrite Hu, Hq.
    + intros n Hu Hn _ Hh. unfold store_after.
      rewrite (grade_run_saved E req ai parsed d Hg Hj Hc n 0%Z).
      * reflexivity.
      * rewrite canSave_truthy, Hu, Hq, (Hne n Hn). reflexivity.
      * exact Hh.
      * now rewrite Hu.
      * now rewrite Hq.
Qed.

Lemma canSave_asymmetric_witness :
  store_after (grade (sample_env 7)
                     [("question", JStr "What is a pointer?");
                      ("answer", JStr "An address.");
                      ("username", JStr ""); ("questionId", JNum 0)]
                     correct_answer) empty_db
  = empty_db
  /\ store_after (grade (sample_env 7) (ana_grade (JNum 0)) correct_answer) empty_db
     = {| users := None;
          student_progress := Some [{| p_username := "ana"; p_question_id := 0;
                                       p_completed_at := 7 |}] |}.
Proof.
  destruct canSave_asymmetric as [_ [_ [_ H]]]. split.
  - apply (H (sample_env 7) _ correct_answer correct_verdict empty_db);
      reflexivity.
  - apply (H (sample_env 7) (ana_grade (JNum 0)) correct_answer correct_verdict
             empty_db) with (n := "ana"); try reflexivity.
    discriminate.
Defined.

(* ================================================================== *)
(** ** The grader: reading the verdict *)

Lemma prefix_nil (s : string) : prefix "" s = true.
Proof. now destruct s. Qed.

Lemma prefix_spec (a s : string) :
  prefix a s = true <-> exists post, s = (a ++ post)%string.
Proof.
  revert s. induction a as [|x a IH]; intros s.
  - split; [intros _; now exists s|intros _; now destruct s].
  - destruct s as [|y s]; cbn.
    + split; [discriminate|intros [post H]; discriminate].
    + destruct (ascii_dec x y) as [->|Hne].
      * rewrite IH. split; intros [post H]; exists post; congruence.
      * split; [discriminate|intros [post H]; congruence].
Qed.

Lemma includes_spec (needle s : string) :
  includes needle s = true
  <-> exists pre post, s = (pre ++ needle ++ post)%string.
Proof.
  induction s as [|c s IH]; cbn [includes].
  - rewrite prefix_spec. split.
    + intros [post H]. now exists "", post.
    + intros [[|x pre] [post H]]; [now exists post|discriminate].
  - rewrite orb_true_iff, prefix_spec, IH. split.
    + intros [[post H]|[pre [post H]]].
      * now exists "", post.
      * exists (String c pre), post. cbn. now rewrite H.
    + intros [[|x pre] [post H]].
      * left. now exists post.
      * right. cbn in H. exists pre, post. congruence.
Qed.

Lemma toLowerCase_app (a b : string) :
  toLowerCase (a ++ b) = (toLowerCase a ++ toLowerCase b)%string.
Proof. induction a as [|x a IH]; cbn; [reflexivity|now rewrite IH]. Qed.

Lemma toLowerCase_split (s a b : string) :
  toLowerCase s = (a ++ b)%string ->
  exists s1 s2, s = (s1 ++ s2)%string /\ toLowerCase s1 = a /\ toLowerCase s2 = b.
Proof.
  revert s. induction a as [|x a IH]; intros s H.
  - now exists "", s.
  - destruct s as [|y s]; [discriminate|]. cbn in H.
    injection H as Hx Hs. destruct (IH s Hs) as [s1 [s2 [-> [H1 H2]]]].
    exists (String y s1), s2. cbn. now rewrite Hx, H1.
Qed.

(** The raw text contains [w] up to the case of its letters: some substring
    of it lowercases to [w]. *)
Definition contains_ci (raw w : string) : Prop :=
  exists pre mid post,
    raw = (pre ++ mid ++ post)%string /\ toLowerCase mid = w.

Lemma includes_lowercase (raw w : string) :
  includes w (toLowerCase raw) = true <-> contains_ci raw w.
Proof.
  rewrite includes_spec. unfold contains_ci. split.
  - intros [pre' [post' H]].
    destruct (toLowerCase_split _ _ _ H) as [pre [rest [-> [Hpre Hrest]]]].
    destruct (toLowerCase_split _ _ _ Hrest) as [mid [post [-> [Hmid Hpost]]]].
    now exists pre, mid, post.
  - intros [pre [mid [post [-> Hmid]]]].
    exists (toLowerCase pre), (toLowerCase post).
    now rewrite !toLowerCase_app, Hmid.
Qed.

(** *** No code fence survives the replacement *)

Definition fence : string := "```".

Lemma prefix_fence_cons (c : ascii) (s : string) :
  prefix fence (String c s) = true
  <-> c = "`"%char /\ prefix "``" s = true.
Proof.
  unfold fence. cbn [prefix].
  destruct (ascii_dec "`" c) as [<-|Hne].
  - tauto.
  - split; [discriminate|intros [H _]; congruence].
Qed.

(** The scan keeps a text that does not start with two backquotes from
    starting with two backquotes. *)
Lemma strip_keeps_short_run (s : string) :
  prefix "``" s = false -> prefix "``" (strip_fences_from 0 s) = false.
Proof.
  destruct s as [|x [|y s]]; cbn [strip_fences_from prefix];
    repeat match goal with
           | |- context [ascii_dec ?a ?b] =>
               destruct (ascii_dec a b); subst; cbn [strip_fences_from prefix]
           end;
    rewrite ?prefix_nil; congruence.
Qed.

Lemma strip_fences_from_clean (skip : nat) (s : string) :
  includes fence (strip_fences_from skip s) = false.
Proof.
  revert skip. induction s as [|c s IH]; intros skip; [reflexivity|].
  cbn [strip_fences_from]. destruct skip as [|k]; [|apply IH].
  destruct (prefix "```json" (String c s)); [apply IH|].
  destruct (prefix "```" (String c s)) eqn:Hp; [apply IH|].
  cbn [includes]. rewrite IH, orb_false_r.
  apply not_true_is_false. intros H.
  apply prefix_fence_cons in H. destruct H as [-> H].
  assert (Hs : prefix "``" s = false).
  { apply not_true_is_false. intros Hs.
    assert (prefix fence (String "`" s) = true)
      by (apply prefix_fence_cons; auto).
    unfold fence in *. congruence. }
  apply strip_keeps_short_run in Hs. congruence.
Qed.

(** *** What the replacement removes *)

(** [raw.replace(/```json|```/g, '')] read as a relation: the text is read
    from the left; where it starts with [```json] these seven characters are
    dropped, where it starts with [```] not followed by [json] these three
    are dropped, and any other character is kept; the reading resumes after
    what was dropped or kept. *)
Inductive strips_to : string -> string -> Prop :=
| strips_end : strips_to "" ""
| strips_json (rest out : string) :
    strips_to rest out -> strips_to ("```json" ++ rest) out
| strips_fence (rest out : string) :
    prefix "json" rest = false ->
    strips_to rest out -> strips_to ("```" ++ rest) out
| strips_copy (c : ascii) (rest out : string) :
    prefix "```" (String c rest) = false ->
    strips_to rest out -> strips_to (String c rest) (String c out).

Lemma prefix_app (a s : string) : prefix a (a ++ s) = true.
Proof. apply prefix_spec. now exists s. Qed.

Lemma prefix_app_inv (a b s : string) :
  prefix (a ++ b) (a ++ s) = prefix b s.
Proof.
  induction a as [|x a IH]; [reflexivity|].
  cbn. destruct (ascii_dec x x); [exact IH|congruence].
Qed.

Lemma prefix_shorter (a b s : string) :
  prefix a s = false -> prefix (a ++ b) s = false.
Proof.
  intros H. apply not_true_is_false. intros Hab.
  apply prefix_spec in Hab. destruct Hab as [post ->].
  rewrite string_app_assoc in H.
  now rewrite prefix_app in H.
Qed.

Lemma strip_fences_from_skip (w rest : string) :
  strip_fences_from (String.length w) (w ++ rest) = strip_fences_from 0 rest.
Proof.
  induction w as [|x w IH]; [reflexivity|].
  cbn [String.length append strip_fences_from]. exact IH.
Qed.

Lemma strip_fences_json (rest : string) :
  strip_fences ("```json" ++ rest) = strip_fences rest.
Proof.
  unfold strip_fences.
  change ("```json" ++ rest)%string
    with (String "`" ("``json" ++ rest)%string).
  cbn [strip_fences_from].
  change (String "`" ("``json" ++ rest)%string)
    with ("```json" ++ rest)%string.
  rewrite prefix_app.
  exact (strip_fences_from_skip "``json" rest).
Qed.

Lemma strip_fences_fence (rest : string) :
  prefix "json" rest = false ->
  strip_fences ("```" ++ rest) = strip_fences rest.
Proof.
  intros Hj. unfold strip_fences.
  change ("```" ++ rest)%string with (String "`" ("``" ++ rest)%string).
  cbn [strip_fences_from].
  change (String "`" ("``" ++ rest)%string) with ("```" ++ rest)%string.
  change "```json" with ("```" ++ "json")%string.
  rewrite prefix_app_inv, Hj, prefix_app.
  exact (strip_fences_from_skip "``" rest).
Qed.

Lemma strip_fences_copy (c : ascii) (rest : string) :
  prefix "```" (String c rest) = false ->
  strip_fences (String c rest) = String c (strip_fences rest).
Proof.
  intros Hf. unfold strip_fences. cbn [strip_fences_from].
  change "```json" with ("```" ++ "json")%string.
  now rewrite (prefix_shorter "```" "json" _ Hf), Hf.
Qed.

Lemma strips_to_unique (s out : string) :
  strips_to s out -> out = strip_fences s.
Proof.
  induction 1 as [|rest out _ IH|rest out Hj _ IH|c rest out Hf _ IH].
  - reflexivity.
  - now rewrite strip_fences_json.
  - now rewrite strip_fences_fence.
  - now rewrite strip_fences_copy, IH.
Qed.

Lemma length_app_string (a b : string) :
  String.length (a ++ b) = String.length a + String.length b.
Proof. induction a as [|x a IH]; cbn; [reflexivity|now rewrite IH]. Qed.

Lemma strips_to_strip_fences (s : string) : strips_to s (strip_fences s).
Proof.
  remember (String.length s) as k eqn:Hk.
  revert s Hk. induction k as [k IH] using lt_wf_ind. intros s Hk.
  destruct s as [|c rest]; [constructor|].
  destruct (prefix "```json" (String c rest)) eqn:Hj.
  { apply prefix_spec in Hj. destruct Hj as [post Hj]. rewrite Hj.
    rewrite strip_fences_json. apply strips_json.
    apply (IH (String.length post)); [|reflexivity].
    rewrite Hk, Hj, length_app_string. cbn. lia. }
  destruct (prefix "```" (String c rest)) eqn:Hf.
  { apply prefix_spec in Hf. destruct Hf as [post Hf]. rewrite Hf in *.
    assert (Hp : prefix "json" post = false).
    { change "```json" with ("```" ++ "json")%string in Hj.
      now rewrite prefix_app_inv in Hj. }
    rewrite (strip_fences_fence post Hp). apply strips_fence; [exact Hp|].
    apply (IH (String.length post)); [|reflexivity].
    rewrite Hk, length_app_string. cbn. lia. }
  rewrite (strip_fences_copy c rest Hf). apply strips_copy; [exact Hf|].
  apply (IH (String.length rest)); [|reflexivity].
  rewrite Hk. cbn. lia.
Qed.

(** A text without backquote goes through the replacement as it is, and the
    replacement goes on after it. *)
Lemma strip_fences_plain (b rest : string) :
  includes "`" b = false ->
  strip_fences (b ++ rest) = (b ++ strip_fences rest)%string.
Proof.
  induction b as [|c b IH]; intros Hb; [reflexivity|].
  cbn [includes] in Hb. apply orb_false_iff in Hb. destruct Hb as [Hc Hb].
  cbn [append]. rewrite strip_fences_copy.
  - now rewrite IH.
  - cbn [prefix] in *. destruct (ascii_dec "`" c); [|reflexivity].
    now rewrite prefix_nil in Hc.
Qed.

Lemma string_app_nil (s : string) : (s ++ "")%string = s.
Proof. induction s as [|c s IH]; cbn; [reflexivity|now rewrite IH]. Qed.

(** A body without backquote between an opening [```json] and a closing
    [```] is what the replacement leaves. *)
Lemma strip_fences_unwraps (b : string) :
  includes "`" b = false ->
  strip_fences ("```json" ++ b ++ "```") = b.
Proof.
  intros Hb. rewrite strip_fences_json, (strip_fences_plain b "```" Hb).
  change (strip_fences "```") with "". apply string_app_nil.
Qed.

(** *** Trimming keeps a substring *)

Lemma includes_trim {P : Platform} (w s : string) :
  includes w s = false -> includes w (trim s) = false.
Proof.
  intros H. apply not_true_is_false. intros Ht.
  apply includes_spec in Ht. destruct Ht as [a [b Ht]].
  destruct (trim_within s) as [pre [post Hs]].
  assert (Hin : includes w s = true).
  { apply includes_spec. exists (pre ++ a)%string, (b ++ post)%string.
    rewrite Hs, Ht. now rewrite !string_app_assoc. }
  congruence.
Qed.

(** *** Claim on the parsing policy *)

Section Parsing.
Context {P : Platform}.

(** The text handed to [JSON.parse]. *)
Definition clean (raw : string) : string := trim (strip_fences raw).

(** The content the handler reads in the answer of the service. *)
Definition content_of (aiData : json) : jsval :=
  opt_chain (prop "content")
    (opt_chain (prop "message") (opt_chain elem0 (prop "choices" aiData))).

Lemma judge_content (text : string) (aiData : json) (c : string) :
  JSON_parse text = Some aiData ->
  content_of aiData = Some (JStr c) ->
  judge (FetchResponse true text) = Verdict (parse_verdict (trim c)).
Proof.
  unfold judge, content_of, raw_content. intros -> Hc.
  destruct aiData; try discriminate; now rewrite Hc.
Qed.

(** C3. The text the service returned is stripped of its code fences: read
    from the left, every [```json] and every other [```] is dropped and every
    other character is kept ([strips_to], which relates each text to one
    result).  What [trim] leaves of the result holds no [```] and is parsed;
    when the parse succeeds the verdict is the parsed value, and when it
    fails the verdict is [{status: "Correct"}] if the raw text contains
    [correct] in any letter case and [{status: "Incorrect", hint: "Review
    the concept and try again."}] otherwise.  This is the verdict the
    handler works with, for the trimmed content of the service's answer. *)
Theorem parse_verdict_policy (raw : string) :
  (exists stripped, strips_to raw stripped)
  /\ (forall stripped,
         strips_to raw stripped ->
         includes "```" (trim stripped) = false
         /\ (forall parsed, JSON_parse (trim stripped) = Some parsed ->
                            parse_verdict raw = parsed)
         /\ (JSON_parse (trim stripped) = None ->
             (contains_ci raw "correct" ->
              parse_verdict raw = JObj [("status", JStr "Correct")])
             /\ (~ contains_ci raw "correct" ->
                 parse_verdict raw
                 = JObj [("status", JStr "Incorrect");
                         ("hint", JStr "Review the concept and try again.")])))
  /\ (forall text aiData,
         JSON_parse text = Some aiData ->
         content_of aiData = Some (JStr raw) ->
         judge (FetchResponse true text) = Verdict (parse_verdict (trim raw))).
Proof.
  split; [|split].
  - exists (strip_fences raw). apply strips_to_strip_fences.
  - intros stripped Hs. apply strips_to_unique in Hs. subst stripped.
    split; [|split].
    + apply includes_trim. apply (strip_fences_from_clean 0 raw).
    + intros parsed H. unfold parse_verdict. now rewrite H.
    + intros H. unfold parse_verdict. rewrite H.
      split; intros Hc.
      * apply includes_lowercase in Hc. now rewrite Hc.
      * destruct (includes "correct" (toLowerCase raw)) eqn:Hi; [|reflexivity].
        apply includes_lowercase in Hi. contradiction.
  - intros text aiData. apply judge_content.
Qed.

End Parsing.

Ltac strips_to_steps :=
  repeat first [ apply strips_end
               | apply strips_json
               | apply strips_fence; [reflexivity|]
               | apply strips_copy; [reflexivity|] ].

(** A verdict in a fenced block, followed by a remark: the fences go, the
    block and the remark stay, and the text is no JSON document; the
    verdict comes from the search for [correct]. *)
Lemma parse_verdict_policy_witness :
  parse_verdict fenced_verdict = JObj [("status", JStr "Correct")]
  /\ parse_verdict ("```json" ++ verdict_text ++ "``` Incorrect, in fact.")
     = JObj [("status", JStr "Correct")]
  /\ parse_verdict "Wrong."
     = JObj [("status", JStr "Incorrect");
             ("hint", JStr "Review the concept and try again.")].
Proof.
  split; [|split].
  - assert (Hs : strips_to fenced_verdict (newline ++ verdict_text ++ newline))
      by (vm_compute; strips_to_steps).
    destruct (proj1 (proj2 (parse_verdict_policy fenced_verdict)) _ Hs)
      as [_ [Hp _]].
    apply Hp. reflexivity.
  - assert (Hs : strips_to ("```json" ++ verdict_text ++ "``` Incorrect, in fact.")
                           (verdict_text ++ " Incorrect, in fact."))
      by (vm_compute; strips_to_steps).
    destruct (proj1 (proj2 (parse_verdict_policy _)) _ Hs) as [_ [_ Hf]].
    apply Hf; [reflexivity|].
    exists ("```json" ++ verdict_text ++ "``` In")%string, "correct",
      ", in fact.". split; reflexivity.
  - assert (Hs : strips_to "Wrong." "Wrong.") by strips_to_steps.
    destruct (proj1 (proj2 (parse_verdict_policy _)) _ Hs) as [_ [_ Hf]].
    apply Hf; [reflexivity|].
    intros H. apply includes_lowercase in H. discriminate H.
Defined.

(* ================================================================== *)
(** ** The uniqueness constraints of the schema *)

(** [username UNIQUE] and [UNIQUE (username, question_id)]. *)
Definition unique_users (d : db) : Prop :=
  forall us, users d = Some us -> NoDup (map u_username us).

Definition unique_pairs (d : db) : Prop :=
  forall sp, student_progress d = Some sp -> NoDup (map pair_of sp).

Definition wf_db (d : db) : Prop := unique_users d /\ unique_pairs d.

Lemma wf_empty_db : wf_db empty_db.
Proof. split; intros l H; discriminate. Qed.

Lemma same_pair_eq (u : string) (q : Z) (r : progress_row) :
  same_pair u q r = true <-> pair_of r = (u, q).
Proof.
  unfold same_pair, pair_of. rewrite andb_true_iff, String.eqb_eq, Z.eqb_eq.
  split; [intros [-> ->]; reflexivity|intros H; now inversion H].
Qed.

Lemma existsb_same_pair (u : string) (q : Z) (sp : list progress_row) :
  existsb (same_pair u q) sp = true <-> In (u, q) (map pair_of sp).
Proof.
  rewrite existsb_exists, in_map_iff.
  split; intros [r [H1 H2]]; exists r.
  - split; [now apply same_pair_eq|assumption].
  - split; [assumption|now apply same_pair_eq].
Qed.

Lemma upsert_row_unique (u : string) (q t : Z) (sp : list progress_row) :
  NoDup (map pair_of sp) -> NoDup (map pair_of (upsert_row u q t sp)).
Proof.
  intros Hnd.
  destruct (upsert_row_effect u q t sp) as [_ [_ [_ Hmap]]]. rewrite Hmap.
  destruct (existsb (same_pair u q) sp) eqn:Hex.
  - now rewrite app_nil_r.
  - apply NoDup_app; [assumption|repeat constructor; intros []|].
    intros x Hx [<-|[]].
    apply existsb_same_pair in Hx. congruence.
Qed.

(** Under the constraint, the table holds exactly one row of the pair after
    the upsert, with the new timestamp. *)
Lemma upsert_row_single (u : string) (q t : Z) (sp : list progress_row) :
  NoDup (map pair_of sp) ->
  filter (same_pair u q) (upsert_row u q t sp)
  = [{| p_username := u; p_question_id := q; p_completed_at := t |}].
Proof.
  intros Hnd. unfold upsert_row.
  assert (Hnone : forall l, existsb (same_pair u q) l = false ->
                            forall f, (forall r, pair_of (f r) = pair_of r) ->
                                      filter (same_pair u q) (map f l) = []).
  { induction l as [|r l IH]; cbn; [reflexivity|].
    intros H f Hf. apply orb_false_iff in H. destruct H as [Hr Hl].
    assert (Hfr : same_pair u q (f r) = false).
    { apply not_true_is_false. intros Ht. apply same_pair_eq in Ht.
      rewrite Hf in Ht. apply same_pair_eq in Ht. congruence. }
    rewrite Hfr. now apply IH. }
  destruct (existsb (same_pair u q) sp) eqn:Hex.
  - induction sp as [|r sp IH]; [discriminate|].
    cbn [map filter]. cbn [map] in Hnd. inversion Hnd as [|x l Hnotin Hnd']. subst.
    destruct (same_pair u q r) eqn:Hr.
    + pose proof Hr as Heq. apply same_pair_eq in Heq.
      unfold pair_of in Heq. injection Heq as Hu Hq. rewrite Hu, Hq.
      unfold same_pair at 1. cbn [p_username p_question_id].
      rewrite !String.eqb_refl, !Z.eqb_refl. cbn [andb]. f_equal.
      apply Hnone.
      * apply not_true_is_false. intros Hl. apply existsb_same_pair in Hl.
        apply Hnotin. unfold pair_of at 1. now rewrite Hu, Hq.
      * intros r0. now destruct (same_pair u q r0).
    + rewrite Hr. apply IH; [assumption|].
      cbn in Hex. now rewrite Hr in Hex.
  - rewrite filter_app. cbn [filter].
    replace (filter (same_pair u q) sp) with (@nil progress_row).
    + unfold same_pair. cbn. now rewrite String.eqb_refl, Z.eqb_refl.
    + symmetry. rewrite <- (map_id sp). apply Hnone; auto.
Qed.

Lemma upsert_row_length_conflict (u : string) (q t : Z) (sp : list progress_row) :
  existsb (same_pair u q) sp = true ->
  List.length (upsert_row u q t sp) = List.length sp.
Proof. unfold upsert_row. intros ->. apply length_map. Qed.

(** *** Every handler keeps the constraints *)

(** The requests the four routes serve. *)
Inductive request : Type :=
| Signup (b : body)
| Login (b : body)
| Grade (b : body) (ai : fetch_outcome)
| Leaderboard.

Definition handle {P : Platform} (E : env) (r : request) : M response :=
  match r with
  | Signup b => signup E b
  | Login b => login E b
  | Grade b ai => grade E b ai
  | Leaderboard => leaderboard E
  end.

(** The stores the handlers can bring about, starting from a database
    without tables. *)
Inductive reachable {P : Platform} : db -> Prop :=
| reach_empty : reachable empty_db
| reach_step (E : env) (r : request) (d : db) :
    reachable d -> reachable (store_after (handle E r) d).

Section Invariant.
Context {P : Platform}.
Variable Inv : db -> Prop.

(** A computation keeps [Inv] when the store it leaves satisfies [Inv]
    whenever the store it found did, on every exit path. *)
Definition keeps {A : Type} (m : M A) : Prop :=
  forall s, Inv (store s) -> Inv (store (snd (m s))).

Definition run_keeps {A : Type} (run : db -> sql_result A) : Prop :=
  forall d a d', Inv d -> run d = inr (a, d') -> Inv d'.

Lemma keeps_ret {A : Type} (a : A) : keeps (ret a).
Proof. intros s H. exact H. Qed.

Lemma keeps_throw {A : Type} (e : error) : keeps (@throw A e).
Proof. intros s H. exact H. Qed.

Lemma keeps_emit (e : event) : keeps (emit e).
Proof. intros s H. exact H. Qed.

Lemma keeps_of_option {A : Type} (o : option A) (e : error) :
  keeps (of_option o e).
Proof. destruct o; [apply keeps_ret|apply keeps_throw]. Qed.

Lemma keeps_of_outcome {A : Type} (o : outcome A) : keeps (of_outcome o).
Proof. intros s H. exact H. Qed.

Lemma keeps_bind {A B : Type} (m : M A) (k : A -> M B) :
  keeps m -> (forall a, keeps (k a)) -> keeps (bind m k).
Proof.
  intros Hm Hk s H. unfold bind. specialize (Hm s H).
  destruct (m s) as [[a|e] s']; cbn in *; [now apply Hk|assumption].
Qed.

Lemma keeps_try_catch {A : Type} (m : M A) (h : error -> M A) :
  keeps m -> (forall e, keeps (h e)) -> keeps (try_catch m h).
Proof.
  intros Hm Hh s H. unfold try_catch. specialize (Hm s H).
  destruct (m s) as [[a|e] s']; cbn in *; [assumption|now apply Hh].
Qed.

Lemma keeps_try_finally {A : Type} (m : M A) (fin : M unit) :
  keeps m -> keeps fin -> keeps (try_finally m fin).
Proof.
  intros Hm Hf s H. unfold try_finally. specialize (Hm s H).
  destruct (m s) as [o s']. cbn in Hm. specialize (Hf s' Hm).
  destruct (fin s') as [[[]|e] s'']; exact Hf.
Qed.

Lemma keeps_getDb (E : env) : keeps (getDb E).
Proof. intros s H. unfold getDb. now destruct (env_set _). Qed.

Lemma keeps_db_end : keeps db_end.
Proof. intros s H. unfold db_end. now destruct (sql s). Qed.

Lemma keeps_query {A : Type} (E : env) (q : sql_stmt) (run : db -> sql_result A) :
  run_keeps run -> keeps (query E q run).
Proof.
  intros Hr s H. unfold query.
  destruct (nth _ _ _); [exact H|].
  destruct (run (store s)) as [e|[a d']] eqn:Hrun; [exact H|].
  exact (Hr _ _ _ H Hrun).
Qed.

End Invariant.

Create HintDb keeps.

#[local] Hint Resolve keeps_ret keeps_throw keeps_emit keeps_of_option
  keeps_of_outcome keeps_getDb keeps_db_end : keeps.

Ltac keeps_step :=
  first [ apply keeps_try_finally | apply keeps_try_catch | apply keeps_bind
        | apply keeps_query | solve [auto with keeps] ].

Section WellFormed.
Context {P : Platform}.

Lemma create_users_wf : run_keeps wf_db create_users.
Proof.
  intros d a d' [Hu Hp]. unfold create_users.
  destruct (users d) eqn:Hd; intros H; inversion H; subst; split; trivial.
  intros us Hus. cbn in Hus. inversion Hus. constructor.
Qed.

Lemma create_progress_wf : run_keeps wf_db create_progress.
Proof.
  intros d a d' [Hu Hp]. unfold create_progress.
  destruct (student_progress d) eqn:Hd; intros H; inversion H; subst;
    split; trivial.
  intros sp Hsp. cbn in Hsp. inversion Hsp. constructor.
Qed.

Lemma select_user_id_wf (u : jsval) : run_keeps wf_db (select_user_id u).
Proof.
  intros d a d' Hwf. unfold select_user_id.
  destruct (users d), (bind_text u); intros H; inversion H; now subst.
Qed.

Lemma select_user_wf (u : jsval) : run_keeps wf_db (select_user u).
Proof.
  intros d a d' Hwf. unfold select_user.
  destruct (users d), (bind_text u); intros H; inversion H; now subst.
Qed.

Lemma select_progress_wf (u : jsval) : run_keeps wf_db (select_progress u).
Proof.
  intros d a d' Hwf. unfold select_progress.
  destruct (student_progress d), (bind_text u); intros H; inversion H; now subst.
Qed.

Lemma leaderboard_query_wf : run_keeps wf_db leaderboard_query.
Proof.
  intros d a d' Hwf. unfold leaderboard_query.
  destruct (users d), (student_progress d); intros H; inversion H; now subst.
Qed.

Lemma insert_user_wf (u f l h : jsval) (t : Z) :
  run_keeps wf_db (insert_user u f l h t).
Proof.
  intros d a d' [Hu Hp]. unfold insert_user.
  destruct (users d) as [us|] eqn:Hd; [|discriminate].
  destruct (bind_text u) as [n|]; [|discriminate].
  destruct (bind_text f), (bind_text l), (bind_text h); try discriminate.
  destruct (existsb _ us) eqn:Hex; [discriminate|].
  intros H. inversion H. subst. split; [|exact Hp].
  intros us' Hus. cbn in Hus. inversion Hus. subst.
  rewrite map_app. cbn.
  apply NoDup_app; [now apply Hu|repeat constructor; intros []|].
  intros x Hx [<-|[]].
  apply in_map_iff in Hx. destruct Hx as [r [Hr Hin]].
  assert (existsb (fun u0 => u_username u0 =? n) us = true).
  { apply existsb_exists. exists r. split; [assumption|].
    now apply String.eqb_eq. }
  congruence.
Qed.

Lemma upsert_progress_wf (u : jsval) (q : option Z) (t : Z) :
  run_keeps wf_db (upsert_progress u q t).
Proof.
  intros d a d' [Hu Hp]. unfold upsert_progress.
  destruct (student_progress d) as [sp|] eqn:Hd; [|discriminate].
  destruct (bind_text u) as [n|]; [|discriminate].
  destruct (bind_int4 q) as [z|]; [|discriminate].
  intros H. inversion H. subst. split; [exact Hu|].
  intros sp' Hsp. cbn in Hsp. inversion Hsp. subst.
  apply upsert_row_unique. now apply Hp.
Qed.

#[local] Hint Resolve create_users_wf create_progress_wf select_user_id_wf
  select_user_wf select_progress_wf leaderboard_query_wf insert_user_wf
  upsert_progress_wf : keeps.

Lemma signup_wf (E : env) (req : body) : keeps wf_db (signup E req).
Proof.
  unfold signup. destruct (_ || _); [auto with keeps|].
  repeat (keeps_step; intros).
  destruct (0 <? _)%nat; repeat (keeps_step; intros).
Qed.

Lemma login_wf (E : env) (req : body) : keeps wf_db (login E req).
Proof.
  unfold login. destruct (_ || _); [auto with keeps|].
  repeat (keeps_step; intros).
  destruct a0 as [|user rows]; [auto with keeps|].
  destruct (negb _); repeat (keeps_step; intros).
Qed.

Lemma persist_wf (E : env) (u q : jsval) : keeps wf_db (persist E u q).
Proof. unfold persist. repeat (keeps_step; intros). Qed.

Lemma grade_wf (E : env) (req : body) (ai : fetch_outcome) :
  keeps wf_db (grade E req ai).
Proof.
  unfold grade. destruct (_ || _); [auto with keeps|].
  destruct (negb _); [auto with keeps|].
  apply keeps_bind.
  - unfold ask. repeat (keeps_step; intros).
    destruct ai as [|[|] text]; repeat (keeps_step; intros).
  - intros [early|parsed]; [auto with keeps|].
    apply keeps_bind.
    + unfold status_of. destruct parsed; auto with keeps.
    + intros status. apply keeps_bind; [|auto with keeps].
      destruct (truthy _); [apply persist_wf|auto with keeps].
Qed.

Lemma leaderboard_wf (E : env) : keeps wf_db (leaderboard E).
Proof. unfold leaderboard. repeat (keeps_step; intros). Qed.

(** Every request leaves a store that satisfies the two uniqueness
    constraints, if it found one. *)
Lemma handle_wf (E : env) (r : request) (d : db) :
  wf_db d -> wf_db (store_after (handle E r) d).
Proof.
  intros H.
  assert (Hk : keeps wf_db (handle E r)).
  { destruct r; cbn; auto using signup_wf, login_wf, grade_wf, leaderboard_wf. }
  specialize (Hk (start d) H).
  unfold store_after, run. now destruct (handle E r (start d)) as [[a|e] s].
Qed.

Lemma reachable_wf (d : db) : reachable d -> wf_db d.
Proof.
  induction 1 as [|E r d _ IH]; [apply wf_empty_db|now apply handle_wf].
Qed.

End WellFormed.

Lemma progress_rows_unique (d : db) :
  unique_pairs d -> NoDup (map pair_of (progress_rows d)).
Proof.
  unfold unique_pairs, progress_rows. intros H.
  destruct (student_progress d) as [sp|]; [now apply H|constructor].
Qed.

(** C4. Grading the same (username, questionId) pair correctly twice, by two
    requests that need not be the same, on a healthy storage layer and for a
    pair the columns accept: after the first request the completion table
    holds exactly one row of the pair, stamped with the clock of that
    request; after the second it still holds exactly one, stamped with the
    clock of the second request (the later of the two when the database
    clock does not run backwards); the second request adds no row and leaves
    the rows of the other pairs as they were.  The uniqueness constraint
    holds afterwards, as it does in every store the handlers can bring
    about. *)
Theorem regrade_keeps_one_record {P : Platform} (E1 E2 : env) (req1 req2 : body)
        (ai1 ai2 : fetch_outcome) (p1 p2 : json) (d : db) (n : string) (q : Z) :
  wf_db d ->
  gradable E1 req1 = true -> judge ai1 = Verdict p1 -> says_correct p1 = true ->
  healthy E1 = true ->
  gradable E2 req2 = true -> judge ai2 = Verdict p2 -> says_correct p2 = true ->
  healthy E2 = true ->
  truthy (canSave (field "username" req1) (field "questionId" req1)) = true ->
  truthy (canSave (field "username" req2) (field "questionId" req2)) = true ->
  bind_text (field "username" req1) = Some n ->
  bind_text (field "username" req2) = Some n ->
  text_value n = true ->
  bind_int4 (Number (field "questionId" req1)) = Some q ->
  bind_int4 (Number (field "questionId" req2)) = Some q ->
  let d1 := store_after (grade E1 req1 ai1) d in
  let d2 := store_after (grade E2 req2 ai2) d1 in
  filter (same_pair n q) (progress_rows d1)
  = [{| p_username := n; p_question_id := q; p_completed_at := now E1 |}]
  /\ filter (same_pair n q) (progress_rows d2)
     = [{| p_username := n; p_question_id := q; p_completed_at := now E2 |}]
  /\ ((now E1 <= now E2)%Z ->
      filter (same_pair n q) (progress_rows d2)
      = [{| p_username := n; p_question_id := q;
            p_completed_at := Z.max (now E1) (now E2) |}])
  /\ List.length (progress_rows d2) = List.length (progress_rows d1)
  /\ filter (fun r => negb (same_pair n q r)) (progress_rows d2)
     = filter (fun r => negb (same_pair n q r)) (progress_rows d)
  /\ unique_pairs d2
  /\ (forall d0, reachable d0 -> unique_pairs d0).
Proof.
  intros Hwf Hg1 Hj1 Hc1 Hh1 Hg2 Hj2 Hc2 Hh2 Hcan1 Hcan2 Hn1 Hn2 _ Hq1 Hq2 d1 d2.
  assert (Hd1 : d1 = set_progress (upsert_row n q (now E1) (progress_rows d)) d).
  { unfold d1, store_after.
    now rewrite (grade_run_saved E1 req1 ai1 p1 d Hg1 Hj1 Hc1 n q Hcan1 Hh1 Hn1 Hq1). }
  assert (Hd2 : d2 = set_progress (upsert_row n q (now E2) (progress_rows d1)) d1).
  { unfold d2, store_after.
    now rewrite (grade_run_saved E2 req2 ai2 p2 d1 Hg2 Hj2 Hc2 n q Hcan2 Hh2 Hn2 Hq2). }
  pose proof (progress_rows_unique d (proj2 Hwf)) as Hnd.
  assert (Hr1 : progress_rows d1 = upsert_row n q (now E1) (progress_rows d))
    by now rewrite Hd1.
  assert (Hr2 : progress_rows d2 = upsert_row n q (now E2) (progress_rows d1))
    by now rewrite Hd2.
  pose proof (upsert_row_unique n q (now E1) _ Hnd) as Hnd1. rewrite <- Hr1 in Hnd1.
  destruct (upsert_row_effect n q (now E1) (progress_rows d)) as [Hex1 [_ [Hoth1 _]]].
  destruct (upsert_row_effect n q (now E2) (progress_rows d1)) as [_ [_ [Hoth2 _]]].
  cbv zeta in Hex1, Hoth1, Hoth2. rewrite <- Hr1 in Hex1, Hoth1. rewrite <- Hr2 in Hoth2.
  assert (Hsingle2 : filter (same_pair n q) (progress_rows d2)
                     = [{| p_username := n; p_question_id := q;
                           p_completed_at := now E2 |}]).
  { rewrite Hr2. now apply upsert_row_single. }
  repeat split.
  - rewrite Hr1. now apply upsert_row_single.
  - exact Hsingle2.
  - intros Hle. rewrite Hsingle2. now rewrite Z.max_r.
  - rewrite Hr2. now apply upsert_row_length_conflict.
  - now rewrite Hoth2, Hoth1.
  - intros sp Hsp. rewrite Hd2 in Hsp. cbn in Hsp. inversion Hsp.
    now apply upsert_row_unique.
  - intros d0 Hd0. exact (proj2 (reachable_wf d0 Hd0)).
Qed.

(** A second request for the pair of [ana_grade (JNum 3)], with another
    question and another answer. *)
Definition ana_grade_again : body :=
  [("questionId", JNum 3); ("username", JStr "ana");
   ("question", JStr "Pointers?"); ("answer", JStr "They hold addresses.")].

Lemma regrade_keeps_one_record_witness :
  let d1 := store_after (grade (sample_env 5) (ana_grade (JNum 3)) correct_answer)
                        two_completions in
  let d2 := store_after (grade (sample_env 9) ana_grade_again correct_answer) d1 in
  progress_rows d2
  = [{| p_username := "ana"; p_question_id := 3; p_completed_at := 9 |};
     {| p_username := "bob"; p_question_id := 3; p_completed_at := 6 |}]
  /\ filter (same_pair "ana" 3) (progress_rows d2)
     = [{| p_username := "ana"; p_question_id := 3; p_completed_at := 9 |}].
Proof.
  split; [reflexivity|].
  assert (Hwf : wf_db two_completions).
  { split; intros l H; [discriminate|].
    injection H as <-. cbn.
    repeat constructor; cbn; intuition discriminate. }
  exact (proj1 (proj2
    (regrade_keeps_one_record (sample_env 5) (sample_env 9)
       (ana_grade (JNum 3)) ana_grade_again correct_answer correct_answer
       correct_verdict correct_verdict two_completions "ana" 3%Z
       Hwf eq_refl eq_refl eq_refl eq_refl eq_refl eq_refl eq_refl
       eq_refl eq_refl eq_refl eq_refl eq_refl eq_refl eq_refl eq_refl))).
Defined.

(* ================================================================== *)
(** ** The registrar and the authenticator *)

(** The rows of the user table, none when it was never created. *)
Definition user_rows (d : db) : list user_row :=
  match users d with
  | Some us => us
  | None => []
  end.

Definition has_username (n : string) (u : user_row) : bool := u_username u =? n.

(** A signup request with its four fields present. *)
Definition complete_signup (req : body) : bool :=
  truthy (field "username" req) && truthy (field "firstName" req)
  && truthy (field "lastName" req) && truthy (field "passwordHash" req).

(** A login request with its two fields present. *)
Definition complete_login (req : body) : bool :=
  truthy (field "username" req) && truthy (field "passwordHash" req).

Ltac run_monad :=
  unfold try_finally, try_catch, bind, getDb, query, db_end, emit, ret, start;
  cbn [store issued sql trace].

Section AccountRuns.
Context {P : Platform}.
Variable E : env.
Hypothesis Hhealthy : healthy E = true.

Lemma signup_complete_guard (req : body) :
  complete_signup req = true ->
  negb (truthy (field "username" req)) || negb (truthy (field "firstName" req))
  || negb (truthy (field "lastName" req))
  || negb (truthy (field "passwordHash" req)) = false.
Proof.
  unfold complete_signup. intros H.
  repeat (apply andb_true_iff in H; destruct H as [H ?]).
  now rewrite H, H0, H1, H2.
Qed.

(** A complete signup for a username the table holds: the conflict
    response, and the store as it was. *)
Lemma signup_run_conflict (req : body) (d : db) (us : list user_row) (n : string) :
  complete_signup req = true ->
  users d = Some us ->
  bind_text (field "username" req) = Some n ->
  existsb (has_username n) us = true ->
  run (signup E req) d
  = (Respond 409 (error_body ("Username " ++ dquote
                              ++ to_string (field "username" req)
                              ++ dquote ++ " is already taken.")),
     d, [DbQuery CreateUsers; DbQuery SelectUserId; DbEnd]).
Proof.
  intros Hc Hus Hn Hex. unfold run, signup.
  rewrite (signup_complete_guard req Hc). run_monad.
  rewrite (healthy_url E Hhealthy). cbn [store issued sql trace].
  rewrite (healthy_nth E 0 Hhealthy).
  unfold create_users. rewrite Hus. cbn [store issued sql trace].
  rewrite (healthy_nth E 1 Hhealthy).
  unfold select_user_id. rewrite Hus, Hn. cbn [store issued sql trace].
  assert (Hlen : Nat.ltb 0 (List.length
                              (map (fun _ : user_row => tt)
                                   (filter (fun u => u_username u =? n) us)))
                 = true).
  { rewrite length_map. apply Nat.ltb_lt.
    apply existsb_exists in Hex. destruct Hex as [u [Hin Hu]].
    assert (Hf : In u (filter (fun u => u_username u =? n) us))
      by (apply filter_In; auto).
    destruct (filter _ us); [destruct Hf|cbn; lia]. }
  rewrite Hlen. reflexivity.
Qed.

(** A complete signup for a username the table does not hold: the success
    response, and the new row appended. *)
Lemma signup_run_fresh (req : body) (d : db) (n f l h : string) :
  complete_signup req = true ->
  bind_text (field "username" req) = Some n ->
  bind_text (field "firstName" req) = Some f ->
  bind_text (field "lastName" req) = Some l ->
  bind_text (field "passwordHash" req) = Some h ->
  existsb (has_username n) (user_rows d) = false ->
  run (signup E req) d
  = (Respond 200 (JObj ([("success", JBool true)]
                        ++ member "username" (field "username" req)
                        ++ member "firstName" (field "firstName" req)
                        ++ member "lastName" (field "lastName" req))),
     set_users (user_rows d ++ [{| u_username := n; u_first_name := f;
                                   u_last_name := l; u_password_hash := h;
                                   u_created_at := now E |}]) d,
     [DbQuery CreateUsers; DbQuery SelectUserId; DbQuery InsertUser; DbEnd]).
Proof.
  intros Hc Hn Hf Hl Hh Hex. unfold run, signup.
  rewrite (signup_complete_guard req Hc). run_monad.
  rewrite (healthy_url E Hhealthy). cbn [store issued sql trace].
  rewrite (healthy_nth E 0 Hhealthy).
  assert (Hnone : filter (fun u => u_username u =? n) (user_rows d) = []).
  { induction (user_rows d) as [|u us IH]; [reflexivity|].
    cbn in *. apply orb_false_iff in Hex. destruct Hex as [Hu Hus].
    unfold has_username in Hu. rewrite Hu. now apply IH. }
  unfold create_users, user_rows in *.
  destruct (users d) as [us|] eqn:Hus; cbn [store issued sql trace];
    rewrite (healthy_nth E 1 Hhealthy);
    unfold select_user_id; cbn [users set_users]; rewrite ?Hus, Hn, Hnone;
    cbn [store issued sql trace map List.length Nat.ltb Nat.leb];
    rewrite (healthy_nth E 2 Hhealthy);
    unfold insert_user; cbn [users set_users]; rewrite ?Hus, Hn, Hf, Hl, Hh;
    unfold has_username in Hex; cbn [existsb] in *; rewrite ?Hex;
    reflexivity.
Qed.

Lemma login_complete_guard (req : body) :
  complete_login req = true ->
  negb (truthy (field "username" req))
  || negb (truthy (field "passwordHash" req)) = false.
Proof.
  unfold complete_login. intros H.
  apply andb_true_iff in H. destruct H as [H H0]. now rewrite H, H0.
Qed.

(** A complete login for a username the table does not hold. *)
Lemma login_run_unknown (req : body) (d : db) (us : list user_row) (n : string) :
  complete_login req = true ->
  users d = Some us ->
  bind_text (field "username" req) = Some n ->
  existsb (has_username n) us = false ->
  run (login E req) d
  = (Respond 401 (error_body "Username not found. Check spelling or sign up."),
     d, [DbQuery SelectUser; DbEnd]).
Proof.
  intros Hc Hus Hn Hex. unfold run, login.
  rewrite (login_complete_guard req Hc). run_monad.
  rewrite (healthy_url E Hhealthy). cbn [store issued sql trace].
  rewrite (healthy_nth E 0 Hhealthy).
  unfold select_user. rewrite Hus, Hn.
  assert (Hnone : filter (fun u => u_username u =? n) us = []).
  { clear Hus. induction us as [|u us IH]; [reflexivity|].
    cbn in *. apply orb_false_iff in Hex. destruct Hex as [Hu Hex].
    unfold has_username in Hu. rewrite Hu. now apply IH. }
  rewrite Hnone. reflexivity.
Qed.

(** A complete login for the username of the first matching row [user],
    with another password hash than the stored one. *)
Lemma login_run_wrong_password (req : body) (d : db) (us rest : list user_row)
      (n : string) (user : user_row) :
  complete_login req = true ->
  users d = Some us ->
  bind_text (field "username" req) = Some n ->
  filter (has_username n) us = user :: rest ->
  strict_eq_string (field "passwordHash" req) (u_password_hash user) = false ->
  run (login E req) d
  = (Respond 401 (error_body "Incorrect password."),
     d, [DbQuery SelectUser; DbEnd]).
Proof.
  intros Hc Hus Hn Hrows Hpw. unfold run, login.
  rewrite (login_complete_guard req Hc). run_monad.
  rewrite (healthy_url E Hhealthy). cbn [store issued sql trace].
  rewrite (healthy_nth E 0 Hhealthy).
  unfold select_user. rewrite Hus, Hn.
  unfold has_username in Hrows. rewrite Hrows, Hpw. reflexivity.
Qed.

(** A complete login with the stored password hash: what the second
    statement finds decides. *)
Lemma login_run_match (req : body) (d : db) (us rest : list user_row)
      (n : string) (user : user_row) :
  complete_login req = true ->
  users d = Some us ->
  bind_text (field "username" req) = Some n ->
  filter (has_username n) us = user :: rest ->
  strict_eq_string (field "passwordHash" req) (u_password_hash user) = true ->
  run (login E req) d
  = match student_progress d with
    | Some sp =>
        (Respond 200
           (JObj [("success", JBool true);
                  ("username", JStr (u_username user));
                  ("firstName", JStr (u_first_name user));
                  ("lastName", JStr (u_last_name user));
                  ("completedIds",
                   JArr (map JNum
                           (row_order
                              (map p_question_id
                                   (filter (fun p => p_username p =? n) sp)))))]),
         d, [DbQuery SelectUser; DbQuery SelectProgress; DbEnd])
    | None =>
        (Respond 500 (error_body "Server error during login"),
         d, [DbQuery SelectUser; DbQuery SelectProgress;
             ConsoleError "Login error:"
                          (SqlError (UndefinedTable "student_progress"));
             DbEnd])
    end.
Proof.
  intros Hc Hus Hn Hrows Hpw. unfold run, login.
  rewrite (login_complete_guard req Hc). run_monad.
  rewrite (healthy_url E Hhealthy). cbn [store issued sql trace].
  rewrite (healthy_nth E 0 Hhealthy).
  unfold select_user. rewrite Hus, Hn.
  unfold has_username in Hrows. rewrite Hrows, Hpw.
  cbn [negb store issued sql trace]. rewrite (healthy_nth E 1 Hhealthy).
  unfold select_progress. rewrite Hn.
  destruct (student_progress d); reflexivity.
Qed.

End AccountRuns.

Lemma existsb_has_username (n : string) (us : list user_row) :
  existsb (has_username n) us = true <-> In n (map u_username us).
Proof.
  rewrite existsb_exists, in_map_iff. unfold has_username.
  split; intros [u [H1 H2]]; exists u.
  - split; [now apply String.eqb_eq|assumption].
  - split; [assumption|now apply String.eqb_eq].
Qed.

Lemma filter_has_username_unique (n : string) (us : list user_row) (user : user_row) :
  NoDup (map u_username us) ->
  In user us ->
  u_username user = n ->
  filter (has_username n) us = [user].
Proof.
  intros Hnd Hin Hn. induction us as [|u us IH]; [destruct Hin|].
  cbn [map] in Hnd. inversion Hnd as [|x l Hnotin Hnd']. subst x l.
  assert (Hnone : forall l, ~ In n (map u_username l) ->
                            filter (has_username n) l = []).
  { induction l as [|v l IHl]; [reflexivity|]. cbn. intros Hl.
    unfold has_username at 1.
    destruct (String.eqb_spec (u_username v) n) as [Hv|Hv]; [tauto|].
    apply IHl. tauto. }
  cbn [filter]. unfold has_username at 1. destruct Hin as [->|Hin].
  - rewrite Hn, String.eqb_refl. f_equal. apply Hnone. now rewrite <- Hn.
  - destruct (String.eqb_spec (u_username u) n) as [Hu|Hu].
    + exfalso. apply Hnotin. rewrite Hu, <- Hn. now apply in_map.
    + now apply IH.
Qed.

Lemma strict_eq_string_false (v : jsval) (s : string) :
  v <> Some (JStr s) -> strict_eq_string v s = false.
Proof.
  destruct v as [[| | |t| |]|]; cbn; trivial.
  intros H. apply String.eqb_neq. congruence.
Qed.

(** C7. A signup for a username the user table already holds changes
    nothing in the store, whatever else the request and the storage layer
    are: the row of the existing user (first name, last name, password hash,
    creation timestamp) is as it was.  When the request is complete and the
    storage layer is healthy, the answer is 409 with a message naming the
    username. *)
Theorem signup_conflict_keeps_user {P : Platform} (E : env) (req : body) (d : db)
        (us : list user_row) (n : string) :
  users d = Some us ->
  In n (map u_username us) ->
  field "username" req = Some (JStr n) ->
  store_after (signup E req) d = d
  /\ (forall user, In user us -> In user (user_rows (store_after (signup E req) d)))
  /\ (complete_signup req = true ->
      healthy E = true ->
      reply (signup E req) d
      = Respond 409 (error_body ("Username " ++ dquote ++ n ++ dquote
                                 ++ " is already taken."))).
Proof.
  intros Hus Hin Hu.
  assert (Hex : existsb (has_username n) us = true)
    by now apply existsb_has_username.
  assert (Hsame : store_after (signup E req) d = d).
  { unfold store_after, run, signup.
    destruct (_ || _); [reflexivity|]. run_monad.
    destruct (env_set (DATABASE_URL E)); [|reflexivity].
    cbn [store issued sql trace].
    destruct (nth 0 (faults E) false); [reflexivity|].
    unfold create_users. rewrite Hus. cbn [store issued sql trace].
    destruct (nth 1 (faults E) false); [reflexivity|].
    unfold select_user_id. rewrite Hus, Hu. cbn [bind_text store issued sql trace].
    assert (Hlen : Nat.ltb 0 (List.length
                                (map (fun _ : user_row => tt)
                                     (filter (fun u => u_username u =? n) us)))
                   = true).
    { rewrite length_map. apply Nat.ltb_lt.
      apply existsb_exists in Hex. destruct Hex as [u [Hi Hn]].
      assert (Hf : In u (filter (fun u => u_username u =? n) us))
        by (apply filter_In; auto).
      destruct (filter _ us); [destruct Hf|cbn; lia]. }
    rewrite Hlen. reflexivity. }
  split; [exact Hsame|split].
  - intros user Huser. rewrite Hsame. unfold user_rows. now rewrite Hus.
  - intros Hc Hh. unfold reply.
    rewrite (signup_run_conflict E Hh req d us n Hc Hus); [|now rewrite Hu|exact Hex].
    rewrite Hu. reflexivity.
Qed.

Definition ana_row (t : Z) : user_row :=
  {| u_username := "ana"; u_first_name := "Ana"; u_last_name := "Lee";
     u_password_hash := "h1"; u_created_at := t |}.

Definition ana_db (t : Z) : db :=
  {| users := Some [ana_row t]; student_progress := None |}.

Lemma signup_conflict_keeps_user_witness :
  store_after (signup (sample_env 8)
                      [("username", JStr "ana"); ("firstName", JStr "Anna");
                       ("lastName", JStr "Li"); ("passwordHash", JStr "h2")])
              (ana_db 5)
  = ana_db 5
  /\ reply (signup (sample_env 8)
                   [("username", JStr "ana"); ("firstName", JStr "Anna");
                    ("lastName", JStr "Li"); ("passwordHash", JStr "h2")])
           (ana_db 5)
     = Respond 409 (error_body ("Username " ++ dquote ++ "ana" ++ dquote
                                ++ " is already taken.")).
Proof.
  destruct (signup_conflict_keeps_user (sample_env 8)
              [("username", JStr "ana"); ("firstName", JStr "Anna");
               ("lastName", JStr "Li"); ("passwordHash", JStr "h2")]
              (ana_db 5) [ana_row 5] "ana" eq_refl (or_introl eq_refl) eq_refl)
    as [Hs [_ Hr]].
  split; [exact Hs|apply Hr; reflexivity].
Defined.

(** The two authentication failures of a login, on a store whose user table
    exists, with a healthy storage layer, a complete request and a username
    the [TEXT] parameter accepts: when the user table does not hold the
    username the answer is 401 with the message about the username; when it
    holds the username with another password hash than the one sent, the
    answer is 401 with the message about the password; the two messages
    differ.  Neither attempt changes the store. *)
Lemma login_failures_on_existing_table {P : Platform} (E : env) (req : body)
      (d : db) (us : list user_row) (n : string) :
  healthy E = true ->
  complete_login req = true ->
  users d = Some us ->
  field "username" req = Some (JStr n) ->
  text_value n = true ->
  (~ In n (map u_username us) ->
   reply (login E req) d
   = Respond 401 (error_body "Username not found. Check spelling or sign up.")
   /\ store_after (login E req) d = d)
  /\ (forall user,
         unique_users d ->
         In user us ->
         u_username user = n ->
         field "passwordHash" req <> Some (JStr (u_password_hash user)) ->
         reply (login E req) d = Respond 401 (error_body "Incorrect password.")
         /\ store_after (login E req) d = d)
  /\ error_body "Username not found. Check spelling or sign up."
     <> error_body "Incorrect password.".
Proof.
  intros Hh Hc Hus Hu _. split; [|split].
  - intros Hnot.
    assert (Hex : existsb (has_username n) us = false).
    { apply not_true_is_false. intros H. now apply existsb_has_username in H. }
    unfold reply, store_after.
    rewrite (login_run_unknown E Hh req d us n Hc Hus); [|now rewrite Hu|exact Hex].
    now split.
  - intros user Huniq Hin Hn Hpw.
    pose proof (filter_has_username_unique n us user (Huniq us Hus) Hin Hn) as Hrows.
    unfold reply, store_after.
    rewrite (login_run_wrong_password E Hh req d us [] n user Hc Hus);
      [now split|now rewrite Hu|exact Hrows|].
    now apply strict_eq_string_false.
  - discriminate.
Qed.

Definition bob_login : body :=
  [("username", JStr "bob"); ("passwordHash", JStr "h1")].

Definition ana_login_wrong_hash : body :=
  [("username", JStr "ana"); ("passwordHash", JStr "h2")].

Lemma login_failures_on_existing_table_witness :
  reply (login (sample_env 8) bob_login) (ana_db 5)
  = Respond 401 (error_body "Username not found. Check spelling or sign up.")
  /\ reply (login (sample_env 8) ana_login_wrong_hash) (ana_db 5)
     = Respond 401 (error_body "Incorrect password.").
Proof.
  split.
  - apply (login_failures_on_existing_table (sample_env 8) bob_login
             (ana_db 5) [ana_row 5] "bob" eq_refl eq_refl eq_refl eq_refl eq_refl).
    intros [H|[]]. discriminate H.
  - apply (proj1 (proj2 (login_failures_on_existing_table (sample_env 8)
             ana_login_wrong_hash
             (ana_db 5) [ana_row 5] "ana" eq_refl eq_refl eq_refl eq_refl eq_refl)))
      with (user := ana_row 5).
    + intros l H. inversion H. repeat constructor. intros [].
    + now left.
    + reflexivity.
    + discriminate.
Defined.

(** C8 (the code departs from the claim).  On a database without tables,
    where no signup has been made yet, every username is unknown; the login
    runs its [SELECT] on [users] without ensuring that the table exists (only
    the signup creates it): the statement fails and the answer is 500 with
    the generic message, not the 401 about the username that the claim
    promises.  Once a signup has created the table (the database left by the
    signup of ana), the same request gets the 401 about the username and a
    login of ana with another hash the 401 about the password.
    ([login_failures_on_existing_table] gives the two failures for every
    store whose user table exists.) *)
Theorem login_unknown_username_on_fresh_database {P : Platform} :
  run (login (sample_env 2) bob_login) empty_db
  = (Respond 500 (error_body "Server error during login"), empty_db,
     [DbQuery SelectUser;
      ConsoleError "Login error:" (SqlError (UndefinedTable "users"));
      DbEnd])
  /\ store_after (signup (sample_env 1) ana_signup) empty_db = ana_db 1
  /\ run (login (sample_env 2) bob_login) (ana_db 1)
     = (Respond 401 (error_body "Username not found. Check spelling or sign up."),
        ana_db 1, [DbQuery SelectUser; DbEnd])
  /\ run (login (sample_env 2) ana_login_wrong_hash) (ana_db 1)
     = (Respond 401 (error_body "Incorrect password."),
        ana_db 1, [DbQuery SelectUser; DbEnd]).
Proof. repeat split. Qed.

(** *** Signup followed by login *)

Section SignupThenLogin.
Context {P : Platform}.
Variables (E1 E2 : env) (d : db) (n f l h : string).
Hypothesis Hh1 : healthy E1 = true.
Hypothesis Hh2 : healthy E2 = true.
Hypothesis Hn : n <> "".
Hypothesis Hf : f <> "".
Hypothesis Hl : l <> "".
Hypothesis Hh : h <> "".
Hypothesis Hfree : existsb (has_username n) (user_rows d) = false.

Let signup_req : body :=
  [("username", JStr n); ("firstName", JStr f);
   ("lastName", JStr l); ("passwordHash", JStr h)].
Let login_req : body := [("username", JStr n); ("passwordHash", JStr h)].
Let new_row : user_row :=
  {| u_username := n; u_first_name := f; u_last_name := l;
     u_password_hash := h; u_created_at := now E1 |}.

Lemma nonempty_eqb (s : string) : s <> "" -> (s =? "") = false.
Proof. apply String.eqb_neq. Qed.

Lemma signup_req_complete : complete_signup signup_req = true.
Proof.
  unfold complete_signup, signup_req, field. cbn.
  now rewrite !nonempty_eqb by assumption.
Qed.

(** The signup succeeds, echoes the identity fields and appends the row. *)
Lemma signup_fresh_run :
  run (signup E1 signup_req) d
  = (Respond 200 (JObj [("success", JBool true); ("username", JStr n);
                        ("firstName", JStr f); ("lastName", JStr l)]),
     set_users (user_rows d ++ [new_row]) d,
     [DbQuery CreateUsers; DbQuery SelectUserId; DbQuery InsertUser; DbEnd]).
Proof.
  rewrite (signup_run_fresh E1 Hh1 signup_req d n f l h signup_req_complete);
    try reflexivity.
  exact Hfree.
Qed.

Lemma new_row_found :
  filter (has_username n) (user_rows d ++ [new_row]) = [new_row].
Proof.
  rewrite filter_app.
  assert (Hnone : filter (has_username n) (user_rows d) = []).
  { induction (user_rows d) as [|u us IH]; [reflexivity|].
    cbn in *. apply orb_false_iff in Hfree. destruct Hfree as [Hu Hus].
    rewrite Hu. now apply IH. }
  rewrite Hnone. cbn. unfold has_username. cbn. now rewrite String.eqb_refl.
Qed.

(** X18. The login that follows, with the same username and password hash,
    when the four strings of the signup are values the [TEXT] columns
    accept (no U+0000): on a store that has the completion table it succeeds
    with the identity fields of the signup and the question ids recorded
    for the username, in the order the database returns them; on a store
    where that table was never created the second statement of the handler
    fails and the answer is 500. *)
Lemma login_after_signup_run :
  text_value n = true -> text_value f = true ->
  text_value l = true -> text_value h = true ->
  let d1 := store_after (signup E1 signup_req) d in
  run (login E2 login_req) d1
  = match student_progress d with
    | Some sp =>
        (Respond 200
           (JObj [("success", JBool true); ("username", JStr n);
                  ("firstName", JStr f); ("lastName", JStr l);
                  ("completedIds",
                   JArr (map JNum
                           (row_order
                              (map p_question_id
                                   (filter (fun p => p_username p =? n) sp)))))]),
         d1, [DbQuery SelectUser; DbQuery SelectProgress; DbEnd])
    | None =>
        (Respond 500 (error_body "Server error during login"),
         d1, [DbQuery SelectUser; DbQuery SelectProgress;
              ConsoleError "Login error:"
                           (SqlError (UndefinedTable "student_progress"));
              DbEnd])
    end.
Proof.
  intros _ _ _ _ d1.
  assert (Hd1 : d1 = set_users (user_rows d ++ [new_row]) d).
  { unfold d1, store_after. now rewrite signup_fresh_run. }
  assert (Hc : complete_login login_req = true).
  { unfold complete_login, login_req, field. cbn.
    now rewrite !nonempty_eqb by assumption. }
  rewrite (login_run_match E2 Hh2 login_req d1 (user_rows d ++ [new_row]) []
                           n new_row Hc).
  - rewrite Hd1. cbn [student_progress set_users].
    destruct (student_progress d); reflexivity.
  - now rewrite Hd1.
  - reflexivity.
  - exact new_row_found.
  - cbn. apply String.eqb_refl.
Qed.

End SignupThenLogin.

(** C6 (the code departs from the claim).  On a database without tables the
    signup of the specification's example succeeds and creates the user
    table only; the login that follows, with the same username and password
    hash, reads [student_progress], which no handler has created yet: the
    statement fails and the answer is 500, not the success the claim
    promises.  ([login_after_signup_run] gives both outcomes in general: the
    login succeeds with the identity fields of the signup exactly when the
    completion table exists.) *)
Theorem login_after_signup_on_fresh_database {P : Platform} :
  let d1 := store_after (signup (sample_env 1) ana_signup) empty_db in
  reply (signup (sample_env 1) ana_signup) empty_db
  = Respond 200 (JObj [("success", JBool true); ("username", JStr "ana");
                       ("firstName", JStr "Ana"); ("lastName", JStr "Lee")])
  /\ d1 = ana_db 1
  /\ run (login (sample_env 2) ana_login) d1
     = (Respond 500 (error_body "Server error during login"), d1,
        [DbQuery SelectUser; DbQuery SelectProgress;
         ConsoleError "Login error:" (SqlError (UndefinedTable "student_progress"));
         DbEnd]).
Proof. cbv zeta. repeat split. Qed.

(* ================================================================== *)
(** ** The leaderboard *)

(** *** Grouping the joined rows *)

Lemma key_eqb_eq (a b : group_key) : key_eqb a b = true <-> a = b.
Proof.
  destruct a as [[a1 a2] a3], b as [[b1 b2] b3]. unfold key_eqb.
  rewrite !andb_true_iff, !String.eqb_eq.
  split; [intros [[-> ->] ->]; reflexivity|intros H; now inversion H].
Qed.

Lemma key_eqb_refl (a : group_key) : key_eqb a a = true.
Proof. now apply key_eqb_eq. Qed.

Lemma key_eqb_neq (a b : group_key) : key_eqb a b = false <-> a <> b.
Proof.
  rewrite <- key_eqb_eq. destruct (key_eqb a b); split; congruence.
Qed.

Lemma filter_all {A : Type} (f : A -> bool) (l : list A) :
  (forall x, In x l -> f x = true) -> filter f l = l.
Proof.
  induction l as [|x l IH]; [reflexivity|]. intros H. cbn.
  rewrite (H x (or_introl eq_refl)). f_equal. apply IH. intros y Hy.
  apply H. now right.
Qed.

Lemma filter_none {A : Type} (f : A -> bool) (l : list A) :
  (forall x, In x l -> f x = false) -> filter f l = [].
Proof.
  induction l as [|x l IH]; [reflexivity|]. intros H. cbn.
  rewrite (H x (or_introl eq_refl)). apply IH. intros y Hy. apply H. now right.
Qed.

Lemma distinct_keys_incl (ks : list group_key) (k : group_key) :
  In k (distinct_keys ks) -> In k ks.
Proof.
  induction ks as [|x ks IH]; [trivial|]. cbn. intros [H|H]; [now left|].
  apply filter_In in H. right. now apply IH.
Qed.

(** A block of rows of one key [k], in front of rows of other keys, makes
    one group, listed first. *)
Lemma distinct_keys_block {A : Type} (key : A -> group_key) (k : group_key)
      (B : list A) (ks : list group_key) :
  B <> [] ->
  (forall r, In r B -> key r = k) ->
  ~ In k ks ->
  distinct_keys (map key B ++ ks) = k :: distinct_keys ks.
Proof.
  intros Hne Hkey Hnot.
  assert (Hid : filter (fun k' => negb (key_eqb k k')) (distinct_keys ks)
                = distinct_keys ks).
  { apply filter_all. intros x Hx. apply negb_true_iff, key_eqb_neq.
    intros <-. apply Hnot. now apply distinct_keys_incl. }
  induction B as [|r B IH]; [congruence|].
  cbn [map app distinct_keys]. rewrite (Hkey r (or_introl eq_refl)). f_equal.
  destruct B as [|r' B].
  - exact Hid.
  - rewrite IH; [|discriminate|intros x Hx; apply Hkey; now right].
    cbn [filter]. now rewrite key_eqb_refl.
Qed.

Lemma group_by_user_block (k : group_key)
      (B R : list (user_row * option progress_row)) :
  B <> [] ->
  (forall r, In r B -> key_of (fst r) = k) ->
  (forall r, In r R -> key_of (fst r) <> k) ->
  group_by_user (B ++ R)
  = {| b_username := fst (fst k); b_first_name := snd (fst k);
       b_last_name := snd k; b_questions_done := count_question_id B |}
    :: group_by_user R.
Proof.
  intros Hne HB HR. unfold group_by_user.
  rewrite map_app.
  rewrite (distinct_keys_block (fun r => key_of (fst r)) k B); trivial.
  - cbn [map]. f_equal.
    + destruct k as [[un fn] ln]. cbn [fst snd]. f_equal. f_equal.
      rewrite filter_app.
      rewrite (filter_all _ B), (filter_none _ R), app_nil_r; trivial.
      * intros r Hr. now apply key_eqb_neq, HR.
      * intros r Hr. apply key_eqb_eq. now apply HB.
    + apply map_ext_in. intros k' Hk'.
      apply distinct_keys_incl in Hk'. apply in_map_iff in Hk'.
      destruct Hk' as [r [Hr Hin]].
      destruct k' as [[un fn] ln]. f_equal. f_equal.
      rewrite filter_app, (filter_none _ B); trivial.
      intros x Hx. apply key_eqb_neq. rewrite (HB x Hx). intros Hk.
      apply (HR r Hin). congruence.
  - intros Hin. apply in_map_iff in Hin. destruct Hin as [r [Hr Hin]].
    now apply (HR r Hin).
Qed.

(** The rows [left_join] makes for one user. *)
Definition joined (sp : list progress_row) (u : user_row)
  : list (user_row * option progress_row) :=
  match filter (fun p => u_username u =? p_username p) sp with
  | [] => [(u, None)]
  | ps => map (fun p => (u, Some p)) ps
  end.

(** The completions recorded for a username. *)
Definition completions (sp : list progress_row) (n : string) : list progress_row :=
  filter (fun p => n =? p_username p) sp.

(** The leaderboard row of a user: the identity fields and the number of
    completions. *)
Definition standing (sp : list progress_row) (u : user_row) : board_row :=
  {| b_username := u_username u; b_first_name := u_first_name u;
     b_last_name := u_last_name u;
     b_questions_done := Z.of_nat (List.length (completions sp (u_username u))) |}.

Lemma joined_nonempty (sp : list progress_row) (u : user_row) : joined sp u <> [].
Proof. unfold joined. destruct (filter _ sp); discriminate. Qed.

Lemma joined_fst (sp : list progress_row) (u : user_row) r :
  In r (joined sp u) -> fst r = u.
Proof.
  unfold joined. destruct (filter _ sp) as [|p ps].
  - intros [<-|[]]. reflexivity.
  - intros H. apply in_map_iff in H. destruct H as [x [<- _]]. reflexivity.
Qed.

Lemma joined_count (sp : list progress_row) (u : user_row) :
  count_question_id (joined sp u)
  = Z.of_nat (List.length (completions sp (u_username u))).
Proof.
  unfold joined, completions, count_question_id.
  destruct (filter _ sp) as [|p ps]; [reflexivity|].
  f_equal. rewrite filter_all; [now rewrite length_map|].
  intros r Hr. apply in_map_iff in Hr. now destruct Hr as [x [<- _]].
Qed.

Lemma left_join_fst (sp : list progress_row) (us : list user_row) r :
  In r (left_join us sp) -> In (fst r) us.
Proof.
  unfold left_join. intros H. apply in_flat_map in H.
  destruct H as [u [Hu Hr]]. fold (joined sp u) in Hr.
  now rewrite (joined_fst sp u r Hr).
Qed.

(** With unique usernames, the grouped join has exactly one row per user, in
    the order of the user table. *)
Lemma group_by_user_left_join (us : list user_row) (sp : list progress_row) :
  NoDup (map u_username us) ->
  group_by_user (left_join us sp) = map (standing sp) us.
Proof.
  induction us as [|u us IH]; [reflexivity|].
  cbn [map]. intros Hnd. inversion Hnd as [|x l Hnotin Hnd']. subst x l.
  change (left_join (u :: us) sp) with (joined sp u ++ left_join us sp).
  rewrite (group_by_user_block (key_of u)).
  - rewrite IH by assumption. f_equal.
    rewrite joined_count. reflexivity.
  - apply joined_nonempty.
  - intros r Hr. now rewrite (joined_fst sp u r Hr).
  - intros r Hr Heq. apply left_join_fst in Hr. apply Hnotin.
    unfold key_of in Heq. injection Heq as Hn _ _.
    rewrite <- Hn. now apply in_map.
Qed.

(** *** Ordering the groups *)

Section Ordering.
Context {P : Platform}.

(** [a] is listed no later than [b]: more questions done, or as many and a
    username that the collation puts first. *)
Definition ranks_before (a b : board_row) : Prop :=
  (b_questions_done b < b_questions_done a)%Z
  \/ (b_questions_done a = b_questions_done b
      /\ collate_leb (b_username a) (b_username b) = true).

Lemma board_leb_spec (a b : board_row) :
  board_leb a b = true <-> ranks_before a b.
Proof.
  unfold board_leb, ranks_before.
  rewrite orb_true_iff, andb_true_iff, Z.ltb_lt, Z.eqb_eq. tauto.
Qed.

Lemma ranks_before_total (a b : board_row) :
  ranks_before a b \/ ranks_before b a.
Proof.
  unfold ranks_before.
  destruct (Z.lt_trichotomy (b_questions_done a) (b_questions_done b))
    as [H|[H|H]]; auto.
  destruct (collate_total (b_username a) (b_username b)); auto.
Qed.

Lemma ranks_before_trans (a b c : board_row) :
  ranks_before a b -> ranks_before b c -> ranks_before a c.
Proof.
  unfold ranks_before. intros [H1|[H1 L1]] [H2|[H2 L2]].
  - left. lia.
  - left. lia.
  - left. lia.
  - right. split; [lia|]. exact (collate_trans _ _ _ L1 L2).
Qed.

Lemma insert_sorted_perm (x : board_row) (l : list board_row) :
  Permutation (insert_sorted x l) (x :: l).
Proof.
  induction l as [|y l IH]; cbn; [apply Permutation_refl|].
  destruct (board_leb x y); [apply Permutation_refl|].
  apply Permutation_trans with (y :: x :: l).
  - now apply perm_skip.
  - apply perm_swap.
Qed.

Lemma insert_sorted_hd (x y : board_row) (l : list board_row) :
  ranks_before y x -> HdRel ranks_before y l ->
  HdRel ranks_before y (insert_sorted x l).
Proof.
  intros Hyx Hl. destruct l as [|z l]; cbn; [now constructor|].
  destruct (board_leb x z); constructor; [assumption|].
  now apply HdRel_inv in Hl.
Qed.

Lemma insert_sorted_sorted (x : board_row) (l : list board_row) :
  Sorted ranks_before l -> Sorted ranks_before (insert_sorted x l).
Proof.
  induction l as [|y l IH]; intros Hs; cbn.
  - repeat constructor.
  - apply Sorted_inv in Hs. destruct Hs as [Hs Hhd].
    destruct (board_leb x y) eqn:Hxy.
    + constructor; [now constructor|].
      constructor. now apply board_leb_spec.
    + constructor; [now apply IH|].
      apply insert_sorted_hd; [|assumption].
      destruct (ranks_before_total x y) as [H|H]; [|assumption].
      apply board_leb_spec in H. congruence.
Qed.

Lemma order_by_perm (l : list board_row) : Permutation (order_by l) l.
Proof.
  induction l as [|x l IH]; cbn; [constructor|].
  apply Permutation_trans with (x :: order_by l).
  - apply insert_sorted_perm.
  - now apply perm_skip.
Qed.

Lemma order_by_sorted (l : list board_row) :
  StronglySorted ranks_before (order_by l).
Proof.
  apply Sorted_StronglySorted.
  - intros a b c. apply ranks_before_trans.
  - induction l as [|x l IH]; cbn; [constructor|].
    now apply insert_sorted_sorted.
Qed.

(** The leaderboard on a healthy storage layer, when both tables exist. *)
Lemma leaderboard_run (E : env) (d : db) (us : list user_row)
      (sp : list progress_row) :
  healthy E = true ->
  users d = Some us ->
  student_progress d = Some sp ->
  run (leaderboard E) d
  = (Respond 200
       (JArr (map board_entry (order_by (group_by_user (left_join us sp))))),
     d, [DbQuery LeaderboardQuery; DbEnd]).
Proof.
  intros Hh Hus Hsp. unfold run, leaderboard. run_monad.
  rewrite (healthy_url E Hh). cbn [store issued sql trace].
  rewrite (healthy_nth E 0 Hh).
  unfold leaderboard_query. rewrite Hus, Hsp. reflexivity.
Qed.

(** X19. The leaderboard when a table is missing: the query fails and the
    answer is 500, whatever the storage layer is otherwise. *)
Lemma leaderboard_run_missing_table (E : env) (d : db) :
  users d = None \/ student_progress d = None ->
  reply (leaderboard E) d = Respond 500 (error_body "Could not load leaderboard").
Proof.
  intros H. unfold reply, run, leaderboard. run_monad.
  destruct (env_set (DATABASE_URL E)); [|reflexivity].
  cbn [store issued sql trace].
  destruct (nth 0 (faults E) false); [reflexivity|].
  unfold leaderboard_query.
  destruct H as [H|H]; rewrite H; [reflexivity|].
  destruct (users d); reflexivity.
Qed.

End Ordering.

(** *** What the leaderboard returns *)

(** X17. When both tables exist and the storage layer is healthy, the
    leaderboard answers 200 with one entry per user (the identity fields and
    the number of completions), sorted by [done] descending and then by
    username in the collation order; a user without completions is listed
    with [done] 0. *)
Lemma leaderboard_ranks_every_user {P : Platform} (E : env) (d : db)
      (us : list user_row) (sp : list progress_row) :
  healthy E = true ->
  users d = Some us ->
  student_progress d = Some sp ->
  unique_users d ->
  exists rows,
    run (leaderboard E) d
    = (Respond 200 (JArr (map board_entry rows)), d, [DbQuery LeaderboardQuery; DbEnd])
    /\ Permutation rows (map (standing sp) us)
    /\ StronglySorted ranks_before rows
    /\ (forall u, In u us ->
                  (forall p, In p sp -> p_username p <> u_username u) ->
                  In {| b_username := u_username u;
                        b_first_name := u_first_name u;
                        b_last_name := u_last_name u;
                        b_questions_done := 0 |} rows).
Proof.
  intros Hh Hus Hsp Huniq.
  exists (order_by (group_by_user (left_join us sp))).
  rewrite (leaderboard_run E d us sp Hh Hus Hsp).
  rewrite (group_by_user_left_join us sp (Huniq us Hus)).
  split; [reflexivity|split; [apply order_by_perm|split; [apply order_by_sorted|]]].
  intros u Hu Hnone.
  apply (Permutation_in _ (Permutation_sym (order_by_perm _))).
  apply in_map_iff. exists u. split; [|assumption].
  unfold standing, completions. rewrite filter_none; [reflexivity|].
  intros p Hp. apply String.eqb_neq. intros Heq. now apply (Hnone p Hp).
Qed.

Definition bob_row (t : Z) : user_row :=
  {| u_username := "bob"; u_first_name := "Bob"; u_last_name := "Ray";
     u_password_hash := "h2"; u_created_at := t |}.

Example leaderboard_sample :
  reply (leaderboard (sample_env 9))
        {| users := Some [ana_row 1; bob_row 2];
           student_progress :=
             Some [{| p_username := "bob"; p_question_id := 3; p_completed_at := 4 |};
                   {| p_username := "zed"; p_question_id := 3; p_completed_at := 5 |}] |}
  = Respond 200
      (JArr [JObj [("username", JStr "bob"); ("firstName", JStr "Bob");
                   ("lastName", JStr "Ray"); ("done", JNum 1)];
             JObj [("username", JStr "ana"); ("firstName", JStr "Ana");
                   ("lastName", JStr "Lee"); ("done", JNum 0)]]).
Proof. reflexivity. Qed.

(** C5 (the code departs from the claim).  After the signup of the
    specification's example on a database without tables, the user [ana]
    exists and has no completion record; the leaderboard reads
    [student_progress], which no handler has created yet, the query fails
    and the answer is 500: the user is not listed with [done] 0.
    ([leaderboard_ranks_every_user] proves the claim for the stores in which
    both tables exist.) *)
Theorem leaderboard_before_first_completion {P : Platform} :
  let d1 := store_after (signup (sample_env 1) ana_signup) empty_db in
  user_rows d1 = [ana_row 1]
  /\ progress_rows d1 = []
  /\ run (leaderboard (sample_env 2)) d1
     = (Respond 500 (error_body "Could not load leaderboard"), d1,
        [DbQuery LeaderboardQuery;
         ConsoleError "Leaderboard DB error:"
                      (SqlError (UndefinedTable "student_progress"));
         DbEnd]).
Proof. cbv zeta. repeat split. Qed.

(** X20. A login on a database whose user table was never created: the first
    statement of the handler fails and the answer is 500. *)
Lemma login_without_user_table {P : Platform} (E : env) (req : body) (d : db) :
  complete_login req = true ->
  users d = None ->
  reply (login E req) d = Respond 500 (error_body "Server error during login").
Proof.
  intros Hc Hus. unfold reply, run, login.
  rewrite (login_complete_guard req Hc). run_monad.
  destruct (env_set (DATABASE_URL E)); [|reflexivity].
  cbn [store issued sql trace].
  destruct (nth 0 (faults E) false); [reflexivity|].
  unfold select_user. now rewrite Hus.
Qed.

(* ================================================================== *)
(** ** Further properties of the handlers *)

(** *** Requests that are turned away before any effect *)

Lemma complete_signup_guard (req : body) :
  negb (truthy (field "username" req)) || negb (truthy (field "firstName" req))
  || negb (truthy (field "lastName" req))
  || negb (truthy (field "passwordHash" req))
  = negb (complete_signup req).
Proof.
  unfold complete_signup.
  destruct (truthy (field "username" req)), (truthy (field "firstName" req)),
    (truthy (field "lastName" req)), (truthy (field "passwordHash" req));
    reflexivity.
Qed.

Lemma complete_login_guard (req : body) :
  negb (truthy (field "username" req)) || negb (truthy (field "passwordHash" req))
  = negb (complete_login req).
Proof.
  unfold complete_login.
  destruct (truthy (field "username" req)), (truthy (field "passwordHash" req));
    reflexivity.
Qed.

(** X1. A signup or a login with a field that is missing, or present with a
    falsy value (the empty string, [0], [false], [null]), is answered 400
    before anything else happens: no statement is issued, nothing is logged,
    the store is the same. *)
Theorem incomplete_request_rejected {P : Platform} (E : env) (req : body) (d : db) :
  (complete_signup req = false ->
   run (signup E req) d = (Respond 400 (error_body "Missing fields"), d, []))
  /\ (complete_login req = false ->
      run (login E req) d = (Respond 400 (error_body "Missing fields"), d, [])).
Proof.
  split; intros H; unfold run.
  - unfold signup. rewrite complete_signup_guard, H. reflexivity.
  - unfold login. rewrite complete_login_guard, H. reflexivity.
Qed.

Definition signup_blank_first_name : body :=
  [("username", JStr "ana"); ("firstName", JStr "");
   ("lastName", JStr "Lee"); ("passwordHash", JStr "h1")].

Definition login_without_hash : body := [("username", JStr "ana")].

Lemma incomplete_request_rejected_witness :
  run (signup (sample_env 1) signup_blank_first_name) empty_db
  = (Respond 400 (error_body "Missing fields"), empty_db, [])
  /\ run (login (sample_env 1) login_without_hash) (ana_db 1)
     = (Respond 400 (error_body "Missing fields"), ana_db 1, []).
Proof.
  split.
  - exact (proj1 (incomplete_request_rejected (sample_env 1)
                    signup_blank_first_name empty_db) eq_refl).
  - exact (proj2 (incomplete_request_rejected (sample_env 1)
                    login_without_hash (ana_db 1)) eq_refl).
Defined.

(** *** A process without [DATABASE_URL] *)

Definition not_configured : error := ConfigError "DATABASE_URL is not set".

(** X2. When [DATABASE_URL] is not set, [getDb] throws before a connection
    object exists: a complete signup, a complete login and the leaderboard
    answer 500 with their generic message, log the cause, issue no statement
    and have no connection to end; the store is the same. *)
Theorem unconfigured_database_is_a_server_error {P : Platform} (E : env)
        (req : body) (d : db) :
  env_set (DATABASE_URL E) = false ->
  (complete_signup req = true ->
   run (signup E req) d
   = (Respond 500 (error_body "Server error during signup"), d,
      [ConsoleError "Signup error:" not_configured]))
  /\ (complete_login req = true ->
      run (login E req) d
      = (Respond 500 (error_body "Server error during login"), d,
         [ConsoleError "Login error:" not_configured]))
  /\ run (leaderboard E) d
     = (Respond 500 (error_body "Could not load leaderboard"), d,
        [ConsoleError "Leaderboard DB error:" not_configured]).
Proof.
  intros Hurl. repeat split.
  - intros Hc. unfold run, signup. rewrite complete_signup_guard, Hc.
    cbn [negb]. run_monad. rewrite Hurl. reflexivity.
  - intros Hc. unfold run, login. rewrite complete_login_guard, Hc.
    cbn [negb]. run_monad. rewrite Hurl. reflexivity.
  - unfold run, leaderboard. run_monad. rewrite Hurl. reflexivity.
Qed.

Definition unconfigured_env : env :=
  {| DATABASE_URL := None; GROQ_API_KEY := Some "key"; now := 0; faults := [] |}.

Lemma unconfigured_database_is_a_server_error_witness :
  run (signup unconfigured_env ana_signup) empty_db
  = (Respond 500 (error_body "Server error during signup"), empty_db,
     [ConsoleError "Signup error:" not_configured])
  /\ run (leaderboard unconfigured_env) (ana_db 1)
     = (Respond 500 (error_body "Could not load leaderboard"), ana_db 1,
        [ConsoleError "Leaderboard DB error:" not_configured]).
Proof.
  split.
  - exact (proj1 (unconfigured_database_is_a_server_error
                    unconfigured_env ana_signup empty_db eq_refl) eq_refl).
  - exact (proj2 (proj2 (unconfigured_database_is_a_server_error
                           unconfigured_env ana_signup (ana_db 1) eq_refl))).
Defined.

(** *** The registrar adds a row exactly when it answers 200 *)

(** The statuses of a signup that did not register anyone. *)
Definition turned_away (r : response) : Prop :=
  exists status message,
    r = Respond status (error_body message)
    /\ (status = 400 \/ status = 409 \/ status = 500)%Z.

(** X3. Whatever the request and the storage layer are, a signup either
    answers 200 with the identity fields of the request, and then the
    username was not in the user table and one row with the four fields of
    the request (the values bound to the four parameters of the [INSERT])
    and the clock of the request was appended to it; or it answers 400, 409 or
    500, and then the rows of the user table are those of before.  The
    completion table is never touched. *)
Theorem signup_all_or_nothing {P : Platform} (E : env) (req : body) (d : db) :
  student_progress (store_after (signup E req) d) = student_progress d
  /\ ((exists n f l h,
          reply (signup E req) d
          = Respond 200 (JObj ([("success", JBool true)]
                               ++ member "username" (field "username" req)
                               ++ member "firstName" (field "firstName" req)
                               ++ member "lastName" (field "lastName" req)))
          /\ bind_text (field "username" req) = Some n
          /\ bind_text (field "firstName" req) = Some f
          /\ bind_text (field "lastName" req) = Some l
          /\ bind_text (field "passwordHash" req) = Some h
          /\ existsb (has_username n) (user_rows d) = false
          /\ user_rows (store_after (signup E req) d)
             = user_rows d ++ [{| u_username := n; u_first_name := f;
                                  u_last_name := l; u_password_hash := h;
                                  u_created_at := now E |}])
      \/ (turned_away (reply (signup E req) d)
          /\ user_rows (store_after (signup E req) d) = user_rows d)).
Proof.
  assert (Haway : forall status message,
             (status = 400 \/ status = 409 \/ status = 500)%Z ->
             turned_away (Respond status (error_body message))).
  { intros status message H. now exists status, message. }
  unfold reply, store_after, run, signup.
  destruct (_ || _).
  { split; [reflexivity|right]. split; [apply Haway; auto|reflexivity]. }
  run_monad.
  destruct (env_set (DATABASE_URL E)).
  2:{ split; [reflexivity|right]. split; [apply Haway; auto|reflexivity]. }
  cbn [store issued sql trace].
  destruct (nth 0 (faults E) false).
  { split; [reflexivity|right]. split; [apply Haway; auto|reflexivity]. }
  assert (Hcreate : exists d0,
             create_users d = inr (tt, d0)
             /\ users d0 = Some (user_rows d)
             /\ student_progress d0 = student_progress d).
  { unfold create_users, user_rows.
    destruct (users d) eqn:Hus; eexists; repeat split; cbn; now rewrite ?Hus. }
  destruct Hcreate as [d0 [-> [Hus0 Hsp0]]]. cbn [store issued sql trace].
  assert (Hrows0 : user_rows d0 = user_rows d).
  { unfold user_rows at 1. now rewrite Hus0. }
  destruct (nth 1 (faults E) false).
  { split; [exact Hsp0|right]. split; [apply Haway; auto|exact Hrows0]. }
  unfold select_user_id. rewrite Hus0.
  destruct (bind_text (field "username" req)) as [n|] eqn:Hn.
  2:{ split; [exact Hsp0|right]. split; [apply Haway; auto|exact Hrows0]. }
  cbn [store issued sql trace].
  destruct (0 <? _)%nat.
  { split; [exact Hsp0|right]. split; [apply Haway; auto|exact Hrows0]. }
  run_monad.
  destruct (nth 2 (faults E) false).
  { split; [exact Hsp0|right]. split; [apply Haway; auto|exact Hrows0]. }
  unfold insert_user. rewrite Hus0, Hn.
  destruct (bind_text (field "firstName" req)) as [f|] eqn:Hf.
  2:{ split; [exact Hsp0|right]. split; [apply Haway; auto|exact Hrows0]. }
  destruct (bind_text (field "lastName" req)) as [l|] eqn:Hl.
  2:{ split; [exact Hsp0|right]. split; [apply Haway; auto|exact Hrows0]. }
  destruct (bind_text (field "passwordHash" req)) as [h|] eqn:Hh.
  2:{ split; [exact Hsp0|right]. split; [apply Haway; auto|exact Hrows0]. }
  destruct (existsb _ (user_rows d)) eqn:Hex.
  { split; [exact Hsp0|right]. split; [apply Haway; auto|exact Hrows0]. }
  split; [exact Hsp0|left].
  exists n, f, l, h. repeat split. exact Hex.
Qed.

(** *** What the handlers never do to the store *)

(** X4. Usernames are unique in every store the handlers can bring about
    from a database without tables, whatever requests and storage faults
    occurred on the way: two rows of the user table with the same username
    are the same row. *)
Theorem reachable_usernames_unique {P : Platform} (d : db) :
  reachable d ->
  NoDup (map u_username (user_rows d))
  /\ (forall u v, In u (user_rows d) -> In v (user_rows d) ->
                  u_username u = u_username v -> u = v).
Proof.
  intros Hr. destruct (reachable_wf d Hr) as [Hu _].
  assert (Hnd : NoDup (map u_username (user_rows d))).
  { unfold user_rows. destruct (users d) as [us|] eqn:Hus;
      [now apply Hu|constructor]. }
  split; [exact Hnd|].
  induction (user_rows d) as [|x l IH]; [intros u v []|].
  cbn [map] in Hnd. inversion Hnd as [|y m Hnotin Hnd']. subst y m.
  intros u v [->|Hu'] [->|Hv'] Heq; trivial.
  - exfalso. apply Hnotin. rewrite Heq. now apply in_map.
  - exfalso. apply Hnotin. rewrite <- Heq. now apply in_map.
  - now apply IH.
Qed.

Definition two_signups_db : db :=
  store_after
    (handle (sample_env 2)
            (Signup [("username", JStr "bob"); ("firstName", JStr "Bob");
                     ("lastName", JStr "Ray"); ("passwordHash", JStr "h2")]))
    (store_after (handle (sample_env 1) (Signup ana_signup)) empty_db).

Lemma reachable_usernames_unique_witness :
  NoDup (map u_username (user_rows two_signups_db)).
Proof.
  apply (reachable_usernames_unique two_signups_db).
  unfold two_signups_db. apply reach_step, reach_step, reach_empty.
Defined.

Section Frames.
Context {P : Platform}.

Lemma select_user_same (d : db) (u : jsval) : run_keeps (eq d) (select_user u).
Proof.
  intros x a x' <-. unfold select_user.
  destruct (users d), (bind_text u); intros H; now inversion H.
Qed.

Lemma select_progress_same (d : db) (u : jsval) :
  run_keeps (eq d) (select_progress u).
Proof.
  intros x a x' <-. unfold select_progress.
  destruct (student_progress d), (bind_text u); intros H; now inversion H.
Qed.

Lemma leaderboard_query_same (d : db) : run_keeps (eq d) leaderboard_query.
Proof.
  intros x a x' <-. unfold leaderboard_query.
  destruct (users d), (student_progress d); intros H; now inversion H.
Qed.

Lemma keeps_run (Inv : db -> Prop) (h : M response) (d : db) :
  keeps Inv h -> Inv d -> Inv (store_after h d).
Proof.
  intros Hk Hd. specialize (Hk (start d) Hd).
  unfold store_after, run. now destruct (h (start d)) as [[a|e] s].
Qed.

(** X5. The authenticator and the leaderboard only read: whatever the
    request, the storage faults and the answer are, the store after a login
    or a leaderboard request is the store of before. *)
Theorem login_and_leaderboard_only_read (E : env) (req : body) (d : db) :
  store_after (login E req) d = d /\ store_after (leaderboard E) d = d.
Proof.
  split; symmetry.
  - apply (keeps_run (eq d)); [|reflexivity].
    unfold login. destruct (_ || _); [auto with keeps|].
    repeat (keeps_step; intros); try apply select_user_same.
    destruct a0 as [|user rows]; [auto with keeps|].
    destruct (negb _); repeat (keeps_step; intros).
    apply select_progress_same.
  - apply (keeps_run (eq d)); [|reflexivity].
    unfold leaderboard. repeat (keeps_step; intros).
    apply leaderboard_query_same.
Qed.

(** The statements of the grader leave the user table alone. *)
Lemma create_progress_users (us : option (list user_row)) :
  run_keeps (fun x => users x = us) create_progress.
Proof.
  intros x a x' Hx. unfold create_progress.
  destruct (student_progress x); intros H; injection H as _ Hd; subst x';
    exact Hx.
Qed.

Lemma upsert_progress_users (us : option (list user_row)) (u : jsval)
      (q : option Z) (t : Z) :
  run_keeps (fun x => users x = us) (upsert_progress u q t).
Proof.
  intros x a x' Hx. unfold upsert_progress.
  destruct (student_progress x); [|discriminate].
  destruct (bind_text u); [|discriminate].
  destruct (bind_int4 q); [|discriminate].
  intros H. injection H as _ Hd. subst x'. exact Hx.
Qed.

(** X6. The grader never touches the user table: for every request, answer
    of the judgment service and state of the storage layer, the user table
    after a grade request is the one of before (including its absence). *)
Theorem grade_leaves_users (E : env) (req : body) (ai : fetch_outcome) (d : db) :
  users (store_after (grade E req ai) d) = users d.
Proof.
  apply (keeps_run (fun x => users x = users d)); [|reflexivity].
  unfold grade. destruct (_ || _); [auto with keeps|].
  destruct (negb _); [auto with keeps|].
  apply keeps_bind.
  - unfold ask. repeat (keeps_step; intros).
    destruct ai as [|[|] text]; repeat (keeps_step; intros).
  - intros [early|parsed]; [auto with keeps|].
    apply keeps_bind.
    + unfold status_of. destruct parsed; auto with keeps.
    + intros status. apply keeps_bind; [|auto with keeps].
      destruct (truthy _); [|auto with keeps].
      unfold persist. repeat (keeps_step; intros).
      * apply create_progress_users.
      * apply upsert_progress_users.
Qed.

End Frames.

(** *** Nothing is ever deleted *)

(** The store [d'] extends [d]: the rows of the user table of [d] are still
    there, unchanged and in front, and so are the pairs of the completion
    table. *)
Definition extends (d d' : db) : Prop :=
  (exists more, user_rows d' = user_rows d ++ more)
  /\ (exists more,
         map pair_of (progress_rows d') = map pair_of (progress_rows d) ++ more).

Lemma extends_refl (d : db) : extends d d.
Proof. split; exists []; now rewrite app_nil_r. Qed.

Section Growth.
Context {P : Platform}.
Variable d0 : db.

Lemma extends_same_rows (d d' : db) :
  extends d0 d -> user_rows d' = user_rows d -> progress_rows d' = progress_rows d ->
  extends d0 d'.
Proof. unfold extends. intros H -> ->. exact H. Qed.

Lemma create_users_extends : run_keeps (extends d0) create_users.
Proof.
  intros d a d' Hd. unfold create_users.
  destruct (users d) eqn:Hus; intros H; injection H as _ <-; [exact Hd|].
  apply (extends_same_rows d); trivial.
  unfold user_rows. cbn. now rewrite Hus.
Qed.

Lemma create_progress_extends : run_keeps (extends d0) create_progress.
Proof.
  intros d a d' Hd. unfold create_progress.
  destruct (student_progress d) eqn:Hsp; intros H; injection H as _ <-;
    [exact Hd|].
  apply (extends_same_rows d); trivial.
  unfold progress_rows. cbn. now rewrite Hsp.
Qed.

Lemma select_user_id_extends (u : jsval) : run_keeps (extends d0) (select_user_id u).
Proof.
  intros d a d' Hd. unfold select_user_id.
  destruct (users d), (bind_text u); intros H; inversion H; now subst.
Qed.

Lemma insert_user_extends (u f l h : jsval) (t : Z) :
  run_keeps (extends d0) (insert_user u f l h t).
Proof.
  intros d a d' [[more Hu] Hp]. unfold insert_user.
  destruct (users d) as [us|] eqn:Hus; [|discriminate].
  destruct (bind_text u), (bind_text f), (bind_text l), (bind_text h);
    try discriminate.
  destruct (existsb _ us); [discriminate|].
  intros H. injection H as _ <-. split.
  - unfold user_rows in *. cbn. rewrite Hus in Hu. rewrite Hu.
    eexists. now rewrite <- app_assoc.
  - exact Hp.
Qed.

Lemma upsert_progress_extends (u : jsval) (q : option Z) (t : Z) :
  run_keeps (extends d0) (upsert_progress u q t).
Proof.
  intros d a d' [Hu [more Hp]]. unfold upsert_progress.
  destruct (student_progress d) as [sp|] eqn:Hsp; [|discriminate].
  destruct (bind_text u) as [n|]; [|discriminate].
  destruct (bind_int4 q) as [z|]; [|discriminate].
  intros H. injection H as _ <-. split; [exact Hu|].
  unfold progress_rows in *. cbn. rewrite Hsp in Hp.
  destruct (upsert_row_effect n z t sp) as [_ [_ [_ Hmap]]].
  rewrite Hmap, Hp. eexists. now rewrite <- app_assoc.
Qed.

Lemma handle_extends (E : env) (r : request) : keeps (extends d0) (handle E r).
Proof.
  destruct r as [req|req|req ai|]; cbn [handle].
  - unfold signup. destruct (_ || _); [auto with keeps|].
    repeat (keeps_step; intros);
      try apply create_users_extends; try apply select_user_id_extends.
    destruct (0 <? _)%nat; repeat (keeps_step; intros).
    apply insert_user_extends.
  - intros s Hs.
    assert (Hk : keeps (eq (store s)) (login E req)).
    { unfold login. destruct (_ || _); [auto with keeps|].
      repeat (keeps_step; intros); try apply select_user_same.
      destruct a0 as [|user rows]; [auto with keeps|].
      destruct (negb _); repeat (keeps_step; intros).
      apply select_progress_same. }
    now rewrite <- (Hk s eq_refl).
  - unfold grade. destruct (_ || _); [auto with keeps|].
    destruct (negb _); [auto with keeps|].
    apply keeps_bind.
    + unfold ask. repeat (keeps_step; intros).
      destruct ai as [|[|] text]; repeat (keeps_step; intros).
    + intros [early|parsed]; [auto with keeps|].
      apply keeps_bind.
      * unfold status_of. destruct parsed; auto with keeps.
      * intros status. apply keeps_bind; [|auto with keeps].
        destruct (truthy _); [|auto with keeps].
        unfold persist. repeat (keeps_step; intros).
        -- apply create_progress_extends.
        -- apply upsert_progress_extends.
  - intros s Hs.
    assert (Hk : keeps (eq (store s)) (leaderboard E)).
    { unfold leaderboard. repeat (keeps_step; intros).
      apply leaderboard_query_same. }
    now rewrite <- (Hk s eq_refl).
Qed.

End Growth.

(** X7. No request deletes or rewrites a user, and none deletes a
    completion: after any request, and so after any sequence of requests,
    the rows the user table had are still its first rows, unchanged, and the
    (username, question) pairs the completion table had are still its first
    pairs (only their timestamps can have been refreshed). *)
Theorem requests_only_extend_the_store {P : Platform} :
  (forall E r d, extends d (store_after (handle E r) d))
  /\ (forall d d', extends d d' -> forall d'', extends d' d'' -> extends d d'')
  /\ (forall E r d u,
         In u (user_rows d) -> In u (user_rows (store_after (handle E r) d))).
Proof.
  assert (Hstep : forall E r d, extends d (store_after (handle E r) d)).
  { intros E r d.
    apply (keeps_run (extends d)); [apply handle_extends|apply extends_refl]. }
  split; [exact Hstep|split].
  - intros d d' [[m1 Hu1] [n1 Hp1]] d'' [[m2 Hu2] [n2 Hp2]]. split.
    + exists (m1 ++ m2). now rewrite Hu2, Hu1, app_assoc.
    + exists (n1 ++ n2). now rewrite Hp2, Hp1, app_assoc.
  - intros E r d u Hin. destruct (Hstep E r d) as [[more ->] _].
    apply in_or_app. now left.
Qed.

(** *** Every connection that is used is ended *)

(** Whether a connection is in use after the effects [t]: the driver
    connects on the first statement and [sql.end] closes the connection. *)
Fixpoint in_use (opened : bool) (t : list event) : bool :=
  match t with
  | [] => opened
  | DbQuery _ :: rest => in_use true rest
  | DbEnd :: rest => in_use false rest
  | _ :: rest => in_use opened rest
  end.

Definition connection_left_open (t : list event) : bool := in_use false t.

Definition is_db_event (e : event) : bool :=
  match e with DbQuery _ | DbEnd => true | _ => false end.

Lemma in_use_snoc (opened : bool) (t : list event) (e : event) :
  in_use opened (t ++ [e])
  = match e with
    | DbQuery _ => true
    | DbEnd => false
    | _ => in_use opened t
    end.
Proof.
  revert opened. induction t as [|x t IH]; intros opened.
  - now destruct e.
  - destruct x; cbn [app in_use]; apply IH.
Qed.

(** The session has no connection in use. *)
Definition closed (s : session) : Prop := connection_left_open (trace s) = false.

(** The session has its [sql] handle, or no connection in use. *)
Definition covered (s : session) : Prop := sql s = true \/ closed s.

(** A computation that keeps the [sql] handle assigned. *)
Definition keeps_handle {A : Type} (m : M A) : Prop :=
  forall s, sql s = true -> sql (snd (m s)) = true.

(** A computation without database effects. *)
Definition quiet {A : Type} (m : M A) : Prop :=
  forall s, sql (snd (m s)) = sql s
            /\ connection_left_open (trace (snd (m s)))
               = connection_left_open (trace s).

Create HintDb sqlhandle.

Section Release.
Context {P : Platform}.
Variable E : env.

Lemma keeps_handle_ret {A : Type} (a : A) : keeps_handle (ret a).
Proof. intros s H. exact H. Qed.

Lemma keeps_handle_emit (e : event) : keeps_handle (emit e).
Proof. intros s H. exact H. Qed.

Lemma keeps_handle_query {A : Type} (q : sql_stmt) (run : db -> sql_result A) :
  keeps_handle (query E q run).
Proof.
  intros s H. unfold query. destruct (nth _ _ _); [exact H|].
  destruct (run (store s)) as [e|[a d']]; exact H.
Qed.

Lemma keeps_handle_bind {A B : Type} (m : M A) (k : A -> M B) :
  keeps_handle m -> (forall a, keeps_handle (k a)) -> keeps_handle (bind m k).
Proof.
  intros Hm Hk s H. unfold bind. specialize (Hm s H).
  destruct (m s) as [[a|e] s']; cbn in *; [now apply Hk|assumption].
Qed.

Lemma quiet_ret {A : Type} (a : A) : quiet (ret a).
Proof. intros s. now split. Qed.

Lemma quiet_throw {A : Type} (e : error) : quiet (@throw A e).
Proof. intros s. now split. Qed.

Lemma quiet_emit (e : event) : is_db_event e = false -> quiet (emit e).
Proof.
  intros He s. split; [reflexivity|]. cbn. unfold connection_left_open.
  rewrite in_use_snoc. now destruct e.
Qed.

Lemma quiet_bind {A B : Type} (m : M A) (k : A -> M B) :
  quiet m -> (forall a, quiet (k a)) -> quiet (bind m k).
Proof.
  intros Hm Hk s. unfold bind. destruct (Hm s) as [H1 H2].
  destruct (m s) as [[a|e] s']; cbn in *; [|now split].
  destruct (Hk a s') as [H3 H4]. split; congruence.
Qed.

Lemma quiet_try_catch {A : Type} (m : M A) (h : error -> M A) :
  quiet m -> (forall e, quiet (h e)) -> quiet (try_catch m h).
Proof.
  intros Hm Hh s. unfold try_catch. destruct (Hm s) as [H1 H2].
  destruct (m s) as [[a|e] s']; cbn in *; [now split|].
  destruct (Hh e s') as [H3 H4]. split; congruence.
Qed.

Lemma quiet_covered {A : Type} (m : M A) (s : session) :
  quiet m -> covered s -> covered (snd (m s)).
Proof.
  intros Hm [H|H]; destruct (Hm s) as [H1 H2]; [left|right]; unfold closed in *;
    congruence.
Qed.

Lemma quiet_closed {A : Type} (m : M A) (s : session) :
  quiet m -> closed s -> closed (snd (m s)).
Proof. intros Hm H. destruct (Hm s) as [_ H2]. unfold closed in *. congruence. Qed.

(** The shape the four handlers share: [sql = getDb()] and the statements in
    a [try], a [catch] that only logs and answers, and [sql.end] in the
    [finally]. *)
Lemma scoped_connection_closed {A : Type} (work : M A) (h : error -> M A)
      (s : session) :
  keeps_handle work ->
  (forall e, quiet (h e)) ->
  closed s ->
  closed (snd (try_finally (try_catch (bind (getDb E) (fun _ => work)) h) db_end s)).
Proof.
  intros Hw Hh Hs.
  assert (Hin : covered (snd (try_catch (bind (getDb E) (fun _ => work)) h s))).
  { unfold try_catch, bind, getDb.
    destruct (env_set (DATABASE_URL E)).
    - set (s1 := {| store := store s; issued := issued s; sql := true;
                    trace := trace s |}).
      pose proof (Hw s1 eq_refl) as Hw1.
      destruct (work s1) as [[a|e] s2]; cbn in *; [now left|].
      apply quiet_covered; [apply Hh|now left].
    - apply quiet_covered; [apply Hh|now right]. }
  unfold try_finally.
  destruct (try_catch _ h s) as [o s3]. cbn in Hin.
  unfold db_end. destruct (sql s3) eqn:Hsql.
  - cbn. unfold closed, connection_left_open. cbn. now rewrite in_use_snoc.
  - cbn. destruct Hin as [Hin|Hin]; [congruence|exact Hin].
Qed.

Lemma log_and_answer_quiet {A : Type} (label : string) (r : A) (e : error) :
  quiet (bind (emit (ConsoleError label e)) (fun _ => ret r)).
Proof. apply quiet_bind; [now apply quiet_emit|intros; apply quiet_ret]. Qed.

Lemma ask_quiet (question answer : jsval) (ai : fetch_outcome) :
  quiet (ask question answer ai).
Proof.
  unfold ask. apply quiet_try_catch.
  - apply quiet_bind; [now apply quiet_emit|]. intros _.
    destruct ai as [|[|] text].
    + apply quiet_throw.
    + apply quiet_bind; [|intros; apply quiet_bind; [|intros; apply quiet_ret]].
      * unfold of_option. destruct (JSON_parse text);
          [apply quiet_ret|apply quiet_throw].
      * intros s. now split.
    + apply quiet_bind; [now apply quiet_emit|intros; apply quiet_ret].
  - intros e. cbv beta. apply log_and_answer_quiet.
Qed.

#[local] Hint Resolve keeps_handle_ret keeps_handle_emit keeps_handle_query
  : sqlhandle.

Ltac handle_step :=
  first [ apply keeps_handle_bind; [|intros] | solve [auto with sqlhandle] ].

Lemma closed_start (d : db) : closed (start d).
Proof. reflexivity. Qed.

Lemma signup_closed (req : body) (s : session) :
  closed s -> closed (snd (signup E req s)).
Proof.
  intros Hs. unfold signup. destruct (_ || _); [exact Hs|].
  apply scoped_connection_closed; trivial.
  - repeat handle_step. destruct (0 <? _)%nat; repeat handle_step.
  - intros e. cbv beta. apply log_and_answer_quiet.
Qed.

Lemma login_closed (req : body) (s : session) :
  closed s -> closed (snd (login E req s)).
Proof.
  intros Hs. unfold login. destruct (_ || _); [exact Hs|].
  apply scoped_connection_closed; trivial.
  - repeat handle_step. destruct a as [|user rows]; [auto with sqlhandle|].
    destruct (negb _); repeat handle_step.
  - intros e. cbv beta. apply log_and_answer_quiet.
Qed.

Lemma leaderboard_closed (s : session) :
  closed s -> closed (snd (leaderboard E s)).
Proof.
  intros Hs. unfold leaderboard.
  apply scoped_connection_closed; trivial.
  - repeat handle_step.
  - intros e. cbv beta. apply log_and_answer_quiet.
Qed.

Lemma persist_closed (u q : jsval) (s : session) :
  closed s -> closed (snd (persist E u q s)).
Proof.
  intros Hs. unfold persist.
  apply scoped_connection_closed; trivial.
  - repeat handle_step.
  - intros e. cbv beta. now apply quiet_emit.
Qed.

Lemma grade_closed (req : body) (ai : fetch_outcome) (s : session) :
  closed s -> closed (snd (grade E req ai s)).
Proof.
  intros Hs. unfold grade. destruct (_ || _); [exact Hs|].
  destruct (negb _); [exact Hs|].
  unfold bind at 1.
  pose proof (quiet_closed (ask (field "question" req) (field "answer" req) ai)
                           s (ask_quiet _ _ ai) Hs) as Hask.
  destruct (ask _ _ ai s) as [[[early|parsed]|e] s1]; cbn in Hask; trivial.
  unfold bind at 1, status_of.
  destruct parsed; try exact Hask;
    unfold ret at 1; unfold bind at 1;
    match goal with
    | |- context [if ?c then _ else _] => destruct c
    end;
    try exact Hask;
    match goal with
    | |- context [persist E ?u ?q s1] =>
        pose proof (persist_closed u q s1 Hask) as Hp;
        destruct (persist E u q s1) as [[[]|e] s2]; exact Hp
    end.
Qed.

End Release.

(** X8. Every request releases its connection on every exit path: whatever
    the request, the answer of the judgment service and the storage faults
    are, the effects of a handler never end with a connection in use (each
    run of statements is followed by [sql.end]). *)
Theorem every_connection_is_ended {P : Platform} (E : env) (r : request) (d : db) :
  connection_left_open (effects (handle E r) d) = false.
Proof.
  assert (H : closed (snd (handle E r (start d)))).
  { destruct r as [req|req|req ai|]; cbn [handle].
    - apply signup_closed, closed_start.
    - apply login_closed, closed_start.
    - apply grade_closed, closed_start.
    - apply leaderboard_closed, closed_start. }
  unfold effects, run, closed in *.
  now destruct (handle E r (start d)) as [[a|e] s].
Qed.

(** *** The grader when the verdict is not a recorded success *)

Section GraderEdges.
Context {P : Platform}.
Variables (E : env) (req : body) (ai : fetch_outcome) (d : db).
Hypothesis Hgradable : gradable E req = true.

Let asked := Fetch groq_url (prompt (field "question" req) (field "answer" req)).

Lemma gradable_guards :
  negb (truthy (field "question" req)) || negb (truthy (field "answer" req)) = false
  /\ negb (env_set (GROQ_API_KEY E)) = false.
Proof.
  unfold gradable in Hgradable.
  apply andb_true_iff in Hgradable. destruct Hgradable as [Hqa Hk].
  apply andb_true_iff in Hqa. destruct Hqa as [Hq Ha].
  now rewrite Hq, Ha, Hk.
Qed.

Lemma ask_upstream (errText : string) (s : session) :
  judge ai = UpstreamError errText ->
  ask (field "question" req) (field "answer" req) ai s
  = (Ok (inl (Respond 502 (error_body "AI service error"))),
     {| store := store s; issued := issued s; sql := sql s;
        trace := (trace s ++ [asked])
                 ++ [ConsoleErrorText "Groq API error:" errText] |}).
Proof.
  unfold judge, ask, try_catch, bind, emit, of_option, of_outcome, ret.
  destruct ai as [|[|] text]; try discriminate.
  - destruct (JSON_parse text) as [aiData|]; try discriminate.
    destruct (raw_content aiData); discriminate.
  - intros H. now inversion H.
Qed.

Lemma ask_failed (e : error) (s : session) :
  judge ai = Failed e ->
  ask (field "question" req) (field "answer" req) ai s
  = (Ok (inl (Respond 500 (error_body "Internal server error during grading"))),
     {| store := store s; issued := issued s; sql := sql s;
        trace := (trace s ++ [asked])
                 ++ [ConsoleError "Groq fetch error:" e] |}).
Proof.
  unfold judge, ask, try_catch, bind, emit, of_option, of_outcome, ret, throw.
  destruct ai as [|[|] text]; try discriminate.
  - intros H. now inversion H.
  - destruct (JSON_parse text) as [aiData|]; cbn.
    + destruct (raw_content aiData) as [raw|e']; try discriminate.
      intros H. now inversion H.
    + intros H. now inversion H.
Qed.

(** The grader on a request whose verdict is [parsed], any verdict. *)
Lemma grade_with_verdict (parsed : json) (s : session) :
  judge ai = Verdict parsed ->
  grade E req ai s
  = bind (status_of parsed)
         (fun status =>
            bind (if truthy (js_and (js_bool (strict_eq_string status "Correct"))
                                    (canSave (field "username" req)
                                             (field "questionId" req)))
                  then persist E (field "username" req) (field "questionId" req)
                  else ret tt)
                 (fun _ => ret (Respond 200 parsed)))
         (fetched req s).
Proof.
  intros Hj. unfold grade. destruct gradable_guards as [-> ->].
  unfold bind at 1. now rewrite (ask_verdict req ai parsed s Hj).
Qed.

End GraderEdges.

(** X9. When the judgment service cannot be used, nothing is graded and
    nothing is stored: a response that is not [ok] is answered 502 with its
    text logged; a rejected [fetch], a body that is not JSON, a [null] body
    or a content that is not a string is answered 500 with the error logged.
    In both cases no statement is issued and the store is the same. *)
Theorem upstream_failure_is_reported {P : Platform} (E : env) (req : body)
        (ai : fetch_outcome) (d : db) :
  gradable E req = true ->
  (forall errText,
      judge ai = UpstreamError errText ->
      run (grade E req ai) d
      = (Respond 502 (error_body "AI service error"), d,
         [Fetch groq_url (prompt (field "question" req) (field "answer" req));
          ConsoleErrorText "Groq API error:" errText]))
  /\ (forall e,
         judge ai = Failed e ->
         run (grade E req ai) d
         = (Respond 500 (error_body "Internal server error during grading"), d,
            [Fetch groq_url (prompt (field "question" req) (field "answer" req));
             ConsoleError "Groq fetch error:" e])).
Proof.
  intros Hg. destruct (gradable_guards E req Hg) as [H1 H2]. split.
  - intros errText Hj. unfold run, grade. rewrite H1, H2.
    unfold bind. now rewrite (ask_upstream req ai errText (start d) Hj).
  - intros e Hj. unfold run, grade. rewrite H1, H2.
    unfold bind. now rewrite (ask_failed req ai e (start d) Hj).
Qed.

Lemma upstream_failure_is_reported_witness :
  run (grade (sample_env 1) (ana_grade (JNum 3)) (FetchResponse false "rate limited"))
      empty_db
  = (Respond 502 (error_body "AI service error"), empty_db,
     [Fetch groq_url (prompt (Some (JStr "What is a pointer?"))
                             (Some (JStr "An address.")));
      ConsoleErrorText "Groq API error:" "rate limited"])
  /\ run (grade (sample_env 1) (ana_grade (JNum 3)) (FetchResponse true "<html>"))
         empty_db
     = (Respond 500 (error_body "Internal server error during grading"), empty_db,
        [Fetch groq_url (prompt (Some (JStr "What is a pointer?"))
                                (Some (JStr "An address.")));
         ConsoleError "Groq fetch error:" SyntaxError]).
Proof.
  split.
  - exact (proj1 (upstream_failure_is_reported (sample_env 1) (ana_grade (JNum 3))
                    (FetchResponse false "rate limited") empty_db eq_refl)
                 "rate limited" eq_refl).
  - exact (proj2 (upstream_failure_is_reported (sample_env 1) (ana_grade (JNum 3))
                    (FetchResponse true "<html>") empty_db eq_refl)
                 SyntaxError eq_refl).
Defined.

(** X10. A verdict that parses to something else than an object whose
    [status] is the string ["Correct"] (an ["Incorrect"] verdict, a verdict
    without status, a number, a string, an array) is answered 200 as it is
    and records nothing, also for a request that supplies a username and a
    questionId: no statement is issued and the store is the same. *)
Theorem other_verdicts_are_not_recorded {P : Platform} (E : env) (req : body)
        (ai : fetch_outcome) (parsed : json) (d : db) :
  gradable E req = true ->
  judge ai = Verdict parsed ->
  parsed <> JNull ->
  says_correct parsed = false ->
  run (grade E req ai) d
  = (Respond 200 parsed, d,
     [Fetch groq_url (prompt (field "question" req) (field "answer" req))]).
Proof.
  intros Hg Hj Hnull Hc. unfold run.
  rewrite (grade_with_verdict E req ai Hg parsed (start d) Hj).
  unfold says_correct in Hc.
  destruct parsed; try congruence; unfold status_of, bind, ret;
    rewrite Hc; reflexivity.
Qed.

Lemma other_verdicts_are_not_recorded_witness :
  run (grade (sample_env 1) (ana_grade (JNum 3))
             (FetchResponse true (envelope_text "Wrong.")))
      empty_db
  = (Respond 200 incorrect_verdict, empty_db,
     [Fetch groq_url (prompt (Some (JStr "What is a pointer?"))
                             (Some (JStr "An address.")))]).
Proof.
  apply (other_verdicts_are_not_recorded (sample_env 1) (ana_grade (JNum 3))
           (FetchResponse true (envelope_text "Wrong.")) incorrect_verdict empty_db);
    try reflexivity.
  discriminate.
Defined.

(** X11. A text of the judgment service that parses to [null] (the text
    [null], with or without code fences) makes the handler throw outside
    every [try], when it reads [parsed.status]: no response is sent by the
    handler, and nothing is stored. *)
Theorem null_verdict_is_unhandled {P : Platform} (E : env) (req : body)
        (ai : fetch_outcome) (d : db) :
  gradable E req = true ->
  judge ai = Verdict JNull ->
  run (grade E req ai) d
  = (Unhandled TypeError, d,
     [Fetch groq_url (prompt (field "question" req) (field "answer" req))]).
Proof.
  intros Hg Hj. unfold run.
  now rewrite (grade_with_verdict E req ai Hg JNull (start d) Hj).
Qed.

Lemma null_verdict_is_unhandled_witness :
  run (grade (sample_env 1) (ana_grade (JNum 3))
             (FetchResponse true (envelope_text "null")))
      empty_db
  = (Unhandled TypeError, empty_db,
     [Fetch groq_url (prompt (Some (JStr "What is a pointer?"))
                             (Some (JStr "An address.")))]).
Proof.
  exact (null_verdict_is_unhandled (sample_env 1) (ana_grade (JNum 3))
           (FetchResponse true (envelope_text "null")) empty_db eq_refl eq_refl).
Defined.

(** X12. A correct verdict for an eligible request whose questionId cannot
    be stored in the [INTEGER] column ([Number(questionId)] is not an
    integer, or is outside the 32-bit range) is still answered 200, but no
    completion is recorded: the table is created if it was missing, the
    insert is rejected, the error is logged as non-fatal and the connection
    is ended. *)
Theorem unstorable_question_id_is_dropped {P : Platform} (E : env) (req : body)
        (ai : fetch_outcome) (parsed : json) (d : db) (n : string) :
  gradable E req = true ->
  judge ai = Verdict parsed ->
  says_correct parsed = true ->
  truthy (canSave (field "username" req) (field "questionId" req)) = true ->
  healthy E = true ->
  bind_text (field "username" req) = Some n ->
  bind_int4 (Number (field "questionId" req)) = None ->
  run (grade E req ai) d
  = (Respond 200 parsed,
     match student_progress d with
     | Some _ => d
     | None => set_progress [] d
     end,
     [Fetch groq_url (prompt (field "question" req) (field "answer" req));
      DbQuery CreateProgress; DbQuery UpsertProgress;
      ConsoleError "Database error (non-fatal):" (SqlError InvalidParameter);
      DbEnd])
  /\ progress_rows (store_after (grade E req ai) d) = progress_rows d.
Proof.
  intros Hg Hj Hc Hcan Hh Hn Hq. unfold store_after, run.
  rewrite (grade_after_verdict E req ai parsed (start d) Hg Hj Hc), Hcan.
  unfold bind at 1, persist. run_monad. unfold fetched. cbn [store issued sql trace].
  rewrite (healthy_url E Hh). cbn [store issued sql trace].
  rewrite (healthy_nth E 0 Hh).
  unfold create_progress, upsert_progress, progress_rows.
  destruct (student_progress d) as [sp|] eqn:Hsp;
    cbn [store issued sql trace student_progress set_progress];
    rewrite (healthy_nth E 1 Hh), ?Hsp, Hn, Hq;
    cbn [store issued sql trace student_progress set_progress app fst snd];
    rewrite ?Hsp; split; reflexivity.
Qed.

Lemma unstorable_question_id_is_dropped_witness :
  run (grade (sample_env 1) (ana_grade (JNum 3000000000)) correct_answer) empty_db
  = (Respond 200 correct_verdict, {| users := None; student_progress := Some [] |},
     [Fetch groq_url (prompt (Some (JStr "What is a pointer?"))
                             (Some (JStr "An address.")));
      DbQuery CreateProgress; DbQuery UpsertProgress;
      ConsoleError "Database error (non-fatal):" (SqlError InvalidParameter);
      DbEnd]).
Proof.
  exact (proj1 (unstorable_question_id_is_dropped (sample_env 1)
                  (ana_grade (JNum 3000000000)) correct_answer correct_verdict
                  empty_db "ana" eq_refl eq_refl eq_refl eq_refl eq_refl eq_refl
                  eq_refl)).
Defined.

(** *** More on the reading of the verdict *)

Lemma contains_ci_suffix (raw a b : string) :
  contains_ci raw (a ++ b) -> contains_ci raw b.
Proof.
  intros [pre [mid [post [-> Hmid]]]].
  destruct (toLowerCase_split mid a b Hmid) as [m1 [m2 [-> [_ H2]]]].
  exists (pre ++ m1)%string, m2, post. split; [|exact H2].
  now rewrite !string_app_assoc.
Qed.

(** X13. The fallback does not tell [incorrect] from [correct]: a text of
    the judgment service that is not JSON and contains the word [incorrect],
    in any letter case, is read as the verdict [{status: "Correct"}], which
    the handler then treats as a success. *)
Theorem fallback_reads_incorrect_as_correct {P : Platform} (raw : string) :
  JSON_parse (clean raw) = None ->
  contains_ci raw "incorrect" ->
  parse_verdict raw = correct_verdict
  /\ says_correct (parse_verdict raw) = true.
Proof.
  intros Hparse Hin.
  assert (Hc : includes "correct" (toLowerCase raw) = true).
  { apply includes_lowercase. now apply (contains_ci_suffix raw "in" "correct"). }
  assert (Hv : parse_verdict raw = correct_verdict).
  { unfold parse_verdict. fold (clean raw). now rewrite Hparse, Hc. }
  split; [exact Hv|now rewrite Hv].
Qed.

Lemma fallback_reads_incorrect_as_correct_witness :
  parse_verdict "Incorrect: a pointer holds an address." = correct_verdict.
Proof.
  apply (@fallback_reads_incorrect_as_correct sample_platform
           "Incorrect: a pointer holds an address." eq_refl).
  exists "", "Incorrect", ": a pointer holds an address.". now split.
Defined.

Lemma prefix_fence_json (s : string) :
  prefix "```json" s = true -> prefix fence s = true.
Proof.
  intros H. apply prefix_spec in H. destruct H as [post ->].
  apply prefix_spec. now exists ("json" ++ post)%string.
Qed.

Lemma strip_fences_without_fence (s : string) :
  includes fence s = false -> strip_fences s = s.
Proof.
  unfold strip_fences. induction s as [|c s IH]; [reflexivity|].
  cbn [includes]. intros H. apply orb_false_iff in H. destruct H as [Hp Hs].
  cbn [strip_fences_from].
  destruct (prefix "```json" (String c s)) eqn:Hj.
  - apply prefix_fence_json in Hj. congruence.
  - unfold fence in Hp. rewrite Hp. now rewrite (IH Hs).
Qed.

(** X14. The replacement removes code fences only.  A text without [```]
    comes out as it went in, so that it reaches [JSON.parse] trimmed and
    otherwise unchanged; the replacement leaves nothing to remove (a second
    pass changes nothing); its result is the one text that [strips_to]
    relates to the input.  Around a fence nothing is lost: a text without
    backquote before a [```] or a [```json] is kept and the replacement goes
    on behind the fence; a body without backquote between [```json] and
    [```] comes out alone, and is what [JSON.parse] is given once
    trimmed. *)
Theorem strip_fences_only_removes_fences {P : Platform} (s : string) :
  (includes "```" s = false -> strip_fences s = s /\ clean s = trim s)
  /\ strip_fences (strip_fences s) = strip_fences s
  /\ (forall out, strips_to s out <-> out = strip_fences s)
  /\ (forall a b, includes "`" a = false ->
                  prefix "json" b = false ->
                  s = (a ++ "```" ++ b)%string ->
                  strip_fences s = (a ++ strip_fences b)%string)
  /\ (forall a b, includes "`" a = false ->
                  s = (a ++ "```json" ++ b)%string ->
                  strip_fences s = (a ++ strip_fences b)%string)
  /\ (forall b, includes "`" b = false ->
                s = ("```json" ++ b ++ "```")%string ->
                strip_fences s = b /\ clean s = trim b).
Proof.
  split; [|split; [|split; [|split; [|split]]]].
  - intros H. pose proof (strip_fences_without_fence s H) as Hs.
    split; [exact Hs|]. unfold clean. now rewrite Hs.
  - apply strip_fences_without_fence. apply (strip_fences_from_clean 0 s).
  - intros out. split; [apply strips_to_unique|].
    intros ->. apply strips_to_strip_fences.
  - intros a b Ha Hb ->.
    now rewrite (strip_fences_plain a _ Ha), (strip_fences_fence b Hb).
  - intros a b Ha ->.
    now rewrite (strip_fences_plain a _ Ha), strip_fences_json.
  - intros b Hb ->. pose proof (strip_fences_unwraps b Hb) as Hs.
    split; [exact Hs|]. unfold clean. now rewrite Hs.
Qed.

Lemma strip_fences_only_removes_fences_witness :
  strip_fences "{ status: 1 }" = "{ status: 1 }"
  /\ strip_fences "abc```def" = "abcdef"
  /\ strip_fences "See ```json{}``` above" = "See {} above"
  /\ clean ("```json" ++ newline ++ verdict_text ++ newline ++ "```")
     = trim (newline ++ verdict_text ++ newline).
Proof.
  split; [|split; [|split]].
  - exact (proj1 (proj1 (strip_fences_only_removes_fences "{ status: 1 }") eq_refl)).
  - exact (proj1 (proj2 (proj2 (proj2
             (strip_fences_only_removes_fences "abc```def"))))
             "abc" "def" eq_refl eq_refl eq_refl).
  - exact (proj1 (proj2 (proj2 (proj2 (proj2
             (strip_fences_only_removes_fences "See ```json{}``` above")))))
             "See " "{}``` above" eq_refl eq_refl).
  - exact (proj2 (proj2 (proj2 (proj2 (proj2 (proj2
             (strip_fences_only_removes_fences
                ("```json" ++ newline ++ verdict_text ++ newline ++ "```"))))))
             (newline ++ verdict_text ++ newline)%string eq_refl eq_refl)).
Defined.

(** *** A recorded completion is reported at the next login *)

(** X15. After a correct verdict was recorded for a username and a
    questionId (healthy storage layer, parameters the columns accept), a
    login of that user with the stored password hash answers 200 with the
    identity fields of the stored row and a [completedIds] list that holds
    the question identifier: the list holds the identifiers of the rows of
    that username, each as often as in the table, in the order the database
    returns them (the statement has no [ORDER BY]). *)
Theorem recorded_completion_is_listed_at_login {P : Platform} (E1 E2 : env)
        (greq lreq : body) (ai : fetch_outcome) (parsed : json) (d : db)
        (us : list user_row) (user : user_row) (n : string) (q : Z) :
  gradable E1 greq = true ->
  judge ai = Verdict parsed ->
  says_correct parsed = true ->
  healthy E1 = true ->
  healthy E2 = true ->
  field "username" greq = Some (JStr n) ->
  n <> "" ->
  text_value n = true ->
  bind_int4 (Number (field "questionId" greq)) = Some q ->
  not_undefined (field "questionId" greq) = true ->
  not_null (field "questionId" greq) = true ->
  users d = Some us ->
  unique_users d ->
  In user us ->
  u_username user = n ->
  field "username" lreq = Some (JStr n) ->
  field "passwordHash" lreq = Some (JStr (u_password_hash user)) ->
  u_password_hash user <> "" ->
  let d1 := store_after (grade E1 greq ai) d in
  exists ids,
    reply (login E2 lreq) d1
    = Respond 200 (JObj [("success", JBool true);
                         ("username", JStr (u_username user));
                         ("firstName", JStr (u_first_name user));
                         ("lastName", JStr (u_last_name user));
                         ("completedIds", JArr (map JNum ids))])
    /\ Permutation ids
         (map p_question_id
              (filter (fun p => p_username p =? n) (progress_rows d1)))
    /\ In q ids.
Proof.
  intros Hg Hj Hc Hh1 Hh2 Hgu Hn _ Hq Hq1 Hq2 Hus Huniq Hin Hun Hlu Hlp Hpw d1.
  assert (Htn : truthy (Some (JStr n)) = true).
  { cbn. now apply negb_true_iff, String.eqb_neq. }
  assert (Hcan : truthy (canSave (field "username" greq) (field "questionId" greq))
                 = true).
  { rewrite canSave_truthy, Hgu, Htn, Hq1, Hq2. reflexivity. }
  assert (Hd1 : d1 = set_progress (upsert_row n q (now E1) (progress_rows d)) d).
  { unfold d1, store_after.
    rewrite (grade_run_saved E1 greq ai parsed d Hg Hj Hc n q Hcan Hh1);
      [reflexivity|now rewrite Hgu|exact Hq]. }
  assert (Hcl : complete_login lreq = true).
  { unfold complete_login. rewrite Hlu, Hlp, Htn. cbn.
    now apply negb_true_iff, String.eqb_neq. }
  assert (Hrows : filter (has_username n) us = [user])
    by (apply filter_has_username_unique; auto).
  assert (Hrun := login_run_match E2 Hh2 lreq d1 us [] n user Hcl).
  rewrite Hd1 in Hrun. cbn [users set_progress student_progress] in Hrun.
  specialize (Hrun Hus).
  rewrite Hlu, Hlp in Hrun. cbn [bind_text strict_eq_string] in Hrun.
  specialize (Hrun eq_refl Hrows (String.eqb_refl _)).
  set (found := map p_question_id
                    (filter (fun p => p_username p =? n)
                            (upsert_row n q (now E1) (progress_rows d)))) in *.
  assert (Hfound : In q found).
  { unfold found.
    destruct (upsert_row_effect n q (now E1) (progress_rows d)) as [Hex _].
    cbv zeta in Hex. apply existsb_exists in Hex. destruct Hex as [r [Hr Hp]].
    apply in_map_iff. exists r.
    unfold same_pair in Hp. apply andb_true_iff in Hp. destruct Hp as [Hp1 Hp2].
    split; [now apply Z.eqb_eq|]. apply filter_In. now split. }
  exists (row_order found). split; [|split].
  - unfold reply. rewrite Hd1. rewrite Hrun. reflexivity.
  - rewrite Hd1. cbn [progress_rows set_progress student_progress].
    apply row_order_perm.
  - apply (Permutation_in q (Permutation_sym (row_order_perm found)) Hfound).
Qed.

Lemma recorded_completion_is_listed_at_login_witness :
  exists ids,
    reply (login (sample_env 9) ana_login)
          (store_after (grade (sample_env 7) (ana_grade (JNum 3)) correct_answer)
                       (ana_db 1))
    = Respond 200 (JObj [("success", JBool true); ("username", JStr "ana");
                         ("firstName", JStr "Ana"); ("lastName", JStr "Lee");
                         ("completedIds", JArr (map JNum ids))])
    /\ Permutation ids [3%Z]
    /\ In 3%Z ids.
Proof.
  refine (recorded_completion_is_listed_at_login
            (sample_env 7) (sample_env 9) (ana_grade (JNum 3)) ana_login
            correct_answer correct_verdict (ana_db 1) [ana_row 1]
            (ana_row 1) "ana" 3%Z
            eq_refl eq_refl eq_refl eq_refl eq_refl eq_refl _ eq_refl eq_refl
            eq_refl eq_refl eq_refl _ (or_introl eq_refl) eq_refl eq_refl
            eq_refl _).
  - discriminate.
  - intros l H. inversion H. repeat constructor. intros [].
  - discriminate.
Defined.

(** *** Examples for the lemmas on login and leaderboard *)

Definition board_users : list user_row := [ana_row 1; bob_row 2].

Definition board_progress : list progress_row :=
  [{| p_username := "bob"; p_question_id := 3; p_completed_at := 4 |};
   {| p_username := "zed"; p_question_id := 3; p_completed_at := 5 |}].

Definition board_db : db :=
  {| users := Some board_users; student_progress := Some board_progress |}.

Lemma board_db_unique : unique_users board_db.
Proof.
  intros us H. injection H as <-. cbn.
  repeat constructor; cbn; intuition discriminate.
Qed.

Lemma leaderboard_ranks_every_user_witness :
  exists rows,
    run (leaderboard (sample_env 9)) board_db
    = (Respond 200 (JArr (map board_entry rows)), board_db,
       [DbQuery LeaderboardQuery; DbEnd])
    /\ Permutation rows (map (standing board_progress) board_users)
    /\ StronglySorted ranks_before rows
    /\ (forall u, In u board_users ->
                  (forall p, In p board_progress -> p_username p <> u_username u) ->
                  In {| b_username := u_username u;
                        b_first_name := u_first_name u;
                        b_last_name := u_last_name u;
                        b_questions_done := 0 |} rows).
Proof.
  exact (leaderboard_ranks_every_user (sample_env 9) board_db board_users
           board_progress eq_refl eq_refl eq_refl board_db_unique).
Defined.

Definition progress_only_db : db :=
  {| users := None; student_progress := Some board_progress |}.

Lemma login_after_signup_run_witness :
  reply (login (sample_env 2) ana_login)
        (store_after (signup (sample_env 1) ana_signup) progress_only_db)
  = Respond 200 (JObj [("success", JBool true); ("username", JStr "ana");
                       ("firstName", JStr "Ana"); ("lastName", JStr "Lee");
                       ("completedIds", JArr [])]).
Proof.
  assert (H := login_after_signup_run (sample_env 1) (sample_env 2)
                 progress_only_db "ana" "Ana" "Lee" "h1" eq_refl eq_refl).
  unfold reply. cbv zeta in H. unfold ana_login, ana_signup.
  rewrite H; first [reflexivity|discriminate].
Defined.

Lemma leaderboard_run_missing_table_witness :
  reply (leaderboard (sample_env 2)) (ana_db 1)
  = Respond 500 (error_body "Could not load leaderboard").
Proof.
  apply (leaderboard_run_missing_table (sample_env 2) (ana_db 1)).
  right. reflexivity.
Defined.

Lemma login_without_user_table_witness :
  reply (login (sample_env 2) ana_login) empty_db
  = Respond 500 (error_body "Server error during login").
Proof.
  exact (login_without_user_table (sample_env 2) ana_login empty_db eq_refl eq_refl).
Defined.

(** *** A statement that fails surfaces as a server error *)

Definition statements (t : list event) : nat := List.length (filter is_query t).

Ltac fault_leaf :=
  cbn; intros ? Hk Hf;
  first [ reflexivity
        | exfalso;
          match type of Hk with
          | (?k < _)%nat =>
              destruct k as [|[|[|k]]]; cbn in Hk; try lia; congruence
          end ].

(** X16. In the registrar, the authenticator and the leaderboard every
    storage failure surfaces: when one of the statements the handler issued
    failed in the storage layer, the answer is 500 with the generic message
    of the handler (the grader is the exception, see
    [grade_reply_verdict]). *)
Theorem failed_statement_is_a_server_error {P : Platform} (E : env) (req : body)
        (d : db) :
  (forall k, (k < statements (effects (signup E req) d))%nat ->
             nth k (faults E) false = true ->
             reply (signup E req) d
             = Respond 500 (error_body "Server error during signup"))
  /\ (forall k, (k < statements (effects (login E req) d))%nat ->
                nth k (faults E) false = true ->
                reply (login E req) d
                = Respond 500 (error_body "Server error during login"))
  /\ (forall k, (k < statements (effects (leaderboard E) d))%nat ->
                nth k (faults E) false = true ->
                reply (leaderboard E) d
                = Respond 500 (error_body "Could not load leaderboard")).
Proof.
  unfold statements, reply, effects, run. repeat split.
  - unfold signup. destruct (_ || _); [fault_leaf|]. run_monad.
    destruct (env_set (DATABASE_URL E)); [|fault_leaf].
    cbn [store issued sql trace].
    destruct (nth 0 (faults E) false) eqn:F0; [fault_leaf|].
    destruct (create_users d) as [e|[[] d0]]; [fault_leaf|].
    cbn [store issued sql trace].
    destruct (nth 1 (faults E) false) eqn:F1; [fault_leaf|].
    destruct (select_user_id _ d0) as [e|[existing d1]]; [fault_leaf|].
    cbn [store issued sql trace].
    destruct (0 <? _)%nat; [fault_leaf|]. run_monad.
    destruct (nth 2 (faults E) false) eqn:F2; [fault_leaf|].
    destruct (insert_user _ _ _ _ _ d1) as [e|[[] d2]]; fault_leaf.
  - unfold login. destruct (_ || _); [fault_leaf|]. run_monad.
    destruct (env_set (DATABASE_URL E)); [|fault_leaf].
    cbn [store issued sql trace].
    destruct (nth 0 (faults E) false) eqn:F0; [fault_leaf|].
    destruct (select_user _ d) as [e|[rows d0]]; [fault_leaf|].
    cbn [store issued sql trace].
    destruct rows as [|user rows]; [fault_leaf|].
    destruct (negb _); [fault_leaf|]. run_monad.
    destruct (nth 1 (faults E) false) eqn:F1; [fault_leaf|].
    destruct (select_progress _ d0) as [e|[ids d1]]; fault_leaf.
  - unfold leaderboard. run_monad.
    destruct (env_set (DATABASE_URL E)); [|fault_leaf].
    cbn [store issued sql trace].
    destruct (nth 0 (faults E) false) eqn:F0; [fault_leaf|].
    destruct (leaderboard_query d) as [e|[rows d0]]; fault_leaf.
Qed.

Definition first_statement_fails : env :=
  {| DATABASE_URL := Some "postgres://db"; GROQ_API_KEY := Some "key";
     now := 0; faults := [true] |}.

Lemma failed_statement_is_a_server_error_witness :
  reply (signup first_statement_fails ana_signup) empty_db
  = Respond 500 (error_body "Server error during signup").
Proof.
  apply (proj1 (failed_statement_is_a_server_error first_statement_fails
                  ana_signup empty_db) 0%nat).
  - cbn. lia.
  - reflexivity.
Defined.
